(** * Runway revamp: the UI controller of [src/index.tsx]

    A shallow embedding of the single-page controller: the module-level
    variables, the part of the DOM the script reads and writes, the
    synchronous event listeners, and the asynchronous [handleGenerateClick],
    whose suspended activations are kept as explicit frames that later
    events (a FileReader finishing, the service answering) resume. *)

From Stdlib Require Import String Ascii.
From stdpp Require Import base tactics decidable option list functions strings.

Local Open Scope string_scope.
Local Open Scope list_scope.
Local Open Scope stdpp_scope.

(** ** JavaScript values *)

(** The two characters the literals of the source contain and a Rocq string
    literal cannot hold directly. *)
Definition dquote : string := String (ascii_of_nat 34) EmptyString.
Definition newline : string := String (ascii_of_nat 10) EmptyString.

(** A value interpolated in a template literal: [undefined] prints as the
    word. *)
Definition interpolate (v : option string) : string :=
  match v with
  | Some s => s
  | None => "undefined"
  end.

(** An object reference used as a condition: [null] is falsy. *)
Definition truthy {A : Type} (o : option A) : bool :=
  match o with
  | Some _ => true
  | None => false
  end.

(** [s.split(sep)] for a one-character separator. *)
Fixpoint split (sep : ascii) (s : string) : list string :=
  match s with
  | EmptyString => [EmptyString]
  | String c rest =>
      if Ascii.eqb c sep then EmptyString :: split sep rest
      else match split sep rest with
           | piece :: pieces => String c piece :: pieces
           | [] => [String c EmptyString]
           end
  end.

Definition comma : ascii := ascii_of_nat 44.

(** [url.split(',')[1]]: [undefined] when the string has no comma. *)
Definition base64_of (dataUrl : string) : option string :=
  split comma dataUrl !! 1.

(** A browser [File]: only its declared [type] is read by the script. *)
Record File := mkFile { name : string; type : string }.

(** The SDK's [Part]: an object whose fields are all optional. *)
Record Blob := mkBlob { data : option string; mimeType : option string }.
Record Part := mkPart { inlineData : option Blob; text : option string }.

Definition imagePart (d : option string) (mime : string) : Part :=
  {| inlineData := Some {| data := d; mimeType := Some mime |}; text := None |}.
Definition textPart (t : string) : Part :=
  {| inlineData := None; text := Some t |}.

(** The response of [generateContent], every level optional as the
    optional chaining of the source expects. *)
Record Content := mkContent { parts : option (list Part) }.
Record Candidate := mkCandidate { content : option Content }.
Record GenerateContentResponse :=
  mkResponse { candidates : option (list Candidate) }.

(** How a promise stands: not settled, fulfilled, or rejected with an error
    whose [message] is kept. *)
Inductive Settlement (A : Type) :=
| Pending
| Fulfilled (value : A)
| Rejected (message : string).
Arguments Pending {A}.
Arguments Fulfilled {A} value.
Arguments Rejected {A} message.

(** ** The DOM *)

(** The elements the script looks up, and the [parentElement] of one. The
    page itself is not part of the sources: the parents of the canvas and of
    the upload input are taken to be two elements of their own. *)
Inductive elem :=
| sketchUploadInput | sketchPreview | sketchCanvas | clearCanvasBtn
| modelUploadInput | modelPreview | modelTypeSelect | designDescription
| realismSlider | realismValue | generateBtn | displayPanel
| placeholder | loading | resultImage
| parentElement (e : elem).

(** Elements are told apart by a number. *)
Fixpoint code (e : elem) : nat :=
  match e with
  | sketchUploadInput => 0 | sketchPreview => 1 | sketchCanvas => 2
  | clearCanvasBtn => 3 | modelUploadInput => 4 | modelPreview => 5
  | modelTypeSelect => 6 | designDescription => 7 | realismSlider => 8
  | realismValue => 9 | generateBtn => 10 | displayPanel => 11
  | placeholder => 12 | loading => 13 | resultImage => 14
  | parentElement e' => 15 + code e'
  end.

Definition elem_eqb (e e' : elem) : bool := Nat.eqb (code e) (code e').

Global Instance elem_eq_dec : EqDecision elem.
Proof. solve_decision. Defined.

(** Where an image element points: nowhere yet, at the object URL made for a
    file, or at a literal URL. *)
Inductive Url :=
| NoUrl
| createObjectURL (f : File)
| Href (s : string).

Definition Point : Type := (Z * Z)%type.
Definition Segment : Type := (Point * Point)%type.

(** The children of an element: what the HTML parser makes of some markup,
    the page's own or a string assigned to [innerHTML]. The script only
    assigns [innerHTML] and never reads it back, so no serialisation of the
    children is modelled: [parsed s] stands for the nodes the parser builds
    from [s], not for a string, and the properties below only ever say which
    markup the children were built from. *)
Inductive Fragment := parsed (markup : string).

Record Dom := mkDom {
  classList : elem → list string;
  display : elem → string;           (* [style.display] *)
  src : elem → Url;
  value : elem → string;
  files : elem → list File;
  disabled : elem → bool;
  textContent : elem → string;
  childNodes : elem → Fragment;     (* set through [innerHTML] *)
  raster : list Segment;             (* what has been stroked on the canvas *)
  path : list (list Point)           (* the current path of [ctx], by subpath *)
}.

Definition contains (d : Dom) (e : elem) (c : string) : bool :=
  bool_decide (c ∈ classList d e).

(** The writes the script performs on the DOM. *)
Inductive Mutation :=
| ClassAdd (e : elem) (c : string)
| ClassRemove (e : elem) (c : string)
| SetDisplay (e : elem) (v : string)
| SetSrc (e : elem) (u : Url)
| SetValue (e : elem) (v : string)
| SetDisabled (e : elem) (b : bool)
| SetTextContent (e : elem) (v : string)
| SetInnerHTML (e : elem) (v : string)
| ClearRect                           (* [clearRect(0, 0, width, height)] *)
| BeginPath
| MoveTo (p : Point)
| LineTo (p : Point)
| Stroke.

Definition token_add (c : string) (l : list string) : list string :=
  if bool_decide (c ∈ l) then l else l ++ [c].
Definition token_remove (c : string) (l : list string) : list string :=
  filter (λ x, x ≠ c) l.

(** The segments of a subpath, point to point. *)
Fixpoint segments (sub : list Point) : list Segment :=
  match sub with
  | p :: (q :: _) as rest => (p, q) :: segments rest
  | _ => []
  end.

(** [lineTo]: extends the last subpath; with no subpath it starts one. *)
Fixpoint line_to (p : Point) (subs : list (list Point)) : list (list Point) :=
  match subs with
  | [] => [[p]]
  | [sub] => [sub ++ [p]]
  | sub :: rest => sub :: line_to p rest
  end.

Definition is_file_input (e : elem) : bool :=
  match e with
  | sketchUploadInput | modelUploadInput => true
  | _ => false
  end.

Definition apply (m : Mutation) (d : Dom) : Dom :=
  match m with
  | ClassAdd e c =>
      mkDom (<[e := token_add c (classList d e)]> (classList d)) (display d)
        (src d) (value d) (files d) (disabled d) (textContent d) (childNodes d)
        (raster d) (path d)
  | ClassRemove e c =>
      mkDom (<[e := token_remove c (classList d e)]> (classList d)) (display d)
        (src d) (value d) (files d) (disabled d) (textContent d) (childNodes d)
        (raster d) (path d)
  | SetDisplay e v =>
      mkDom (classList d) (<[e := v]> (display d))
        (src d) (value d) (files d) (disabled d) (textContent d) (childNodes d)
        (raster d) (path d)
  | SetSrc e u =>
      mkDom (classList d) (display d)
        (<[e := u]> (src d)) (value d) (files d) (disabled d) (textContent d)
        (childNodes d) (raster d) (path d)
  | SetValue e v =>
      (* assigning the value of a file input also empties its file list *)
      mkDom (classList d) (display d)
        (src d) (<[e := v]> (value d))
        (if is_file_input e then <[e := []]> (files d) else files d)
        (disabled d) (textContent d) (childNodes d) (raster d) (path d)
  | SetDisabled e b =>
      mkDom (classList d) (display d)
        (src d) (value d) (files d) (<[e := b]> (disabled d)) (textContent d)
        (childNodes d) (raster d) (path d)
  | SetTextContent e v =>
      mkDom (classList d) (display d)
        (src d) (value d) (files d) (disabled d) (<[e := v]> (textContent d))
        (childNodes d) (raster d) (path d)
  | SetInnerHTML e v =>
      mkDom (classList d) (display d)
        (src d) (value d) (files d) (disabled d) (textContent d)
        (<[e := parsed v]> (childNodes d)) (raster d) (path d)
  | ClearRect =>
      mkDom (classList d) (display d)
        (src d) (value d) (files d) (disabled d) (textContent d) (childNodes d)
        [] (path d)
  | BeginPath =>
      mkDom (classList d) (display d)
        (src d) (value d) (files d) (disabled d) (textContent d) (childNodes d)
        (raster d) []
  | MoveTo p =>
      mkDom (classList d) (display d)
        (src d) (value d) (files d) (disabled d) (textContent d) (childNodes d)
        (raster d) (path d ++ [[p]])
  | LineTo p =>
      mkDom (classList d) (display d)
        (src d) (value d) (files d) (disabled d) (textContent d) (childNodes d)
        (raster d) (line_to p (path d))
  | Stroke =>
      mkDom (classList d) (display d)
        (src d) (value d) (files d) (disabled d) (textContent d) (childNodes d)
        (raster d ++ concat (map segments (path d))) (path d)
  end.

(** What the browser does on the user's behalf before a listener runs:
    choosing files in a file input, editing a control. *)
Definition choose_files (e : elem) (fs : list File) (d : Dom) : Dom :=
  mkDom (classList d) (display d) (src d) (value d) (<[e := fs]> (files d))
    (disabled d) (textContent d) (childNodes d) (raster d) (path d).

Definition edit (e : elem) (v : string) (d : Dom) : Dom :=
  mkDom (classList d) (display d) (src d) (<[e := v]> (value d)) (files d)
    (disabled d) (textContent d) (childNodes d) (raster d) (path d).

(** ** The state of the script *)

(** A suspended activation of [handleGenerateClick]: the [await] it stopped
    at, with the local [parts] built so far. [Stalled] is an activation whose
    awaited promise can no longer settle, [Returned] one that ran to its
    end. *)
Inductive Frame :=
| AwaitSketchPart (file : File)
| AwaitModelPart (sofar : list Part) (file : File)
| AwaitResponse
| Stalled
| Returned.

Record State := mkState {
  sketchFile : option File;
  modelFile : option File;
  isDrawing : bool;
  hasDrawn : bool;
  dom : Dom;
  frames : list Frame
}.

(** What a run of the script does to the world, in order. *)
Inductive Effect :=
| Write (m : Mutation)
| Alert (msg : string)
| ConsoleError (msg : string)
| Uncaught (msg : string)
| ReadAsDataURL (f : File)
| ToDataURL
| GenerateContent (model : string) (request : list Part).

Definition Handler : Type := State → State * list Effect.

Definition andThen (h k : Handler) : Handler :=
  λ st, let '(s1, e1) := h st in
        let '(s2, e2) := k s1 in
        (s2, e1 ++ e2).
Declare Scope handler_scope.
Delimit Scope handler_scope with H.
Notation "h ;; k" := (andThen h k)
  (at level 100, k at level 200, right associativity) : handler_scope.
Local Open Scope handler_scope.

Definition write (m : Mutation) : Handler :=
  λ st, (mkState (sketchFile st) (modelFile st) (isDrawing st) (hasDrawn st)
           (apply m (dom st)) (frames st), [Write m]).
Definition emit (e : Effect) : Handler := λ st, (st, [e]).
Definition skip : Handler := λ st, (st, []).

Definition set_sketchFile (v : option File) : Handler :=
  λ st, (mkState v (modelFile st) (isDrawing st) (hasDrawn st) (dom st)
           (frames st), []).
Definition set_modelFile (v : option File) : Handler :=
  λ st, (mkState (sketchFile st) v (isDrawing st) (hasDrawn st) (dom st)
           (frames st), []).
Definition set_isDrawing (v : bool) : Handler :=
  λ st, (mkState (sketchFile st) (modelFile st) v (hasDrawn st) (dom st)
           (frames st), []).
Definition set_hasDrawn (v : bool) : Handler :=
  λ st, (mkState (sketchFile st) (modelFile st) (isDrawing st) v (dom st)
           (frames st), []).
Definition set_frames (v : list Frame) (st : State) : State :=
  mkState (sketchFile st) (modelFile st) (isDrawing st) (hasDrawn st) (dom st) v.
Definition set_dom (d : Dom) (st : State) : State :=
  mkState (sketchFile st) (modelFile st) (isDrawing st) (hasDrawn st) d
    (frames st).

(** ** Synchronous listeners *)

Definition updateUIState : Handler :=
  (λ st, if truthy (sketchFile st)
         then write (ClassAdd (parentElement sketchCanvas) "disabled") st
         else write (ClassRemove (parentElement sketchCanvas) "disabled") st) ;;
  (λ st, if hasDrawn st
         then write (ClassAdd (parentElement sketchUploadInput) "disabled") st
         else write (ClassRemove (parentElement sketchUploadInput) "disabled") st) ;;
  (λ st, if truthy (modelFile st)
         then write (ClassAdd modelTypeSelect "disabled") st
         else write (ClassRemove modelTypeSelect "disabled") st).

Definition clearCanvas : Handler :=
  write ClearRect ;;
  set_hasDrawn false ;;
  set_sketchFile None ;;
  write (SetValue sketchUploadInput EmptyString) ;;
  write (SetDisplay sketchPreview "none") ;;
  updateUIState.

(** The [change] listener of the sketch upload input. *)
Definition onSketchUploadChange : Handler :=
  λ st, match files (dom st) sketchUploadInput with
        | file :: _ =>
            (set_sketchFile (Some file) ;;
             write (SetSrc sketchPreview (createObjectURL file)) ;;
             write (SetDisplay sketchPreview "block") ;;
             clearCanvas ;;
             updateUIState) st
        | [] => skip st
        end.

(** The [change] listener of the model upload input. *)
Definition onModelUploadChange : Handler :=
  λ st, match files (dom st) modelUploadInput with
        | file :: _ =>
            (set_modelFile (Some file) ;;
             write (SetSrc modelPreview (createObjectURL file)) ;;
             write (SetDisplay modelPreview "block") ;;
             updateUIState) st
        | [] => skip st
        end.

(** The [input] listener of the realism slider. *)
Definition onRealismInput : Handler :=
  λ st, write (SetTextContent realismValue
                 (value (dom st) realismSlider +:+ "%")) st.

(** [pos] is what [getPosition] returns for the event. *)
Definition startDrawing (pos : Point) : Handler :=
  λ st, if truthy (sketchFile st) then skip st
        else (set_isDrawing true ;;
              set_hasDrawn true ;;
              updateUIState ;;
              write BeginPath ;;
              write (MoveTo pos)) st.

Definition draw (pos : Point) : Handler :=
  λ st, if negb (isDrawing st) || truthy (sketchFile st)
        then skip st
        else (write (LineTo pos) ;; write Stroke) st.

Definition stopDrawing : Handler := set_isDrawing false.

(** ** Encoding a sketch or a photo *)

(** [reader.onloadend], as the promise of [fileToGenerativePart] sees it.
    [result] is [reader.result] when the event fires: the data URL, or [null]
    when the read failed. On [null] the call of [split] throws inside the
    callback, before [resolve] runs, and the promise has no other way to
    settle. *)
Definition base64EncodedDataPromise (result : option string)
  : Settlement (option string) :=
  match result with
  | Some dataUrl => Fulfilled (base64_of dataUrl)
  | None => Pending
  end.

(** The promise [fileToGenerativePart(file)] returns, once the reader of
    the file has fired [loadend] with [result]. *)
Definition fileToGenerativePart (file : File) (result : option string)
  : Settlement Part :=
  match base64EncodedDataPromise result with
  | Fulfilled d => Fulfilled (imagePart d (type file))
  | Pending => Pending
  | Rejected msg => Rejected msg
  end.

Section Controller.

(** [canvas.toDataURL('image/png')]: the browser's PNG encoder, a function
    of what is on the canvas. *)
Variable toDataURL : list Segment → string.

Definition canvasToGenerativePart (d : Dom) : Part :=
  let dataUrl := toDataURL (raster d) in
  let base64Data := base64_of dataUrl in
  imagePart base64Data "image/png".

(** ** The generation operation *)

Definition modelName : string := "gemini-2.5-flash-image-preview".

Definition textPrompt (modelInfo userDescription realism : string) : string :=
  newline +:+
  "          Transform the provided clothing sketch into a hyperrealistic, photorealistic runway photo." +:+ newline +:+
  "          Have " +:+ modelInfo +:+ " wear this design." +:+ newline +:+
  "          Render the fabric, shimmer, style, and other details exactly as described in the following text: " +:+ dquote +:+ userDescription +:+ dquote +:+ "." +:+ newline +:+
  "          The realism level must be " +:+ realism +:+ "%." +:+ newline +:+
  "          Ensure the final image looks like high-quality professional photography, not an AI-generated image." +:+ newline +:+
  "          The output must be a single, cohesive, photorealistic image of the new design on the model." +:+ newline +:+
  "        ".

Definition modelInfo (st : State) : string :=
  if truthy (modelFile st) then "the uploaded model"
  else "a " +:+ value (dom st) modelTypeSelect +:+ " model".

(** [designDescription.value || 'a stunning fashion design']: the empty
    string is falsy. *)
Definition userDescription (st : State) : string :=
  if bool_decide (value (dom st) designDescription = EmptyString)
  then "a stunning fashion design"
  else value (dom st) designDescription.

Definition realism (st : State) : string := value (dom st) realismSlider.

Definition noImageMessage : string := "API response did not contain an image.".

Definition errorHTML (message : string) : string :=
  "<p style=" +:+ dquote +:+ "color: red;" +:+ dquote +:+
  ">An error occurred. Please try again.<br><small>" +:+ message +:+
  "</small></p>".

(** A stretch of [handleGenerateClick] between two suspension points: it
    runs on the state it finds and ends in the frame the activation is left
    in. *)
Definition Stretch : Type := State → Frame * (State * list Effect).

Definition run_then (h : Handler) (k : Stretch) : Stretch :=
  λ st, let '(s1, e1) := h st in
        let '(fr, (s2, e2)) := k s1 in
        (fr, (s2, e1 ++ e2)).

Definition finish (h : Handler) : Stretch := λ st, (Returned, h st).

(** The [finally] block. *)
Definition finally : Handler :=
  write (ClassAdd loading "hidden") ;;
  write (SetDisabled generateBtn false).

(** The [catch] block followed by the [finally] block. *)
Definition catch (message : string) : Handler :=
  emit (ConsoleError message) ;;
  write (ClassRemove placeholder "hidden") ;;
  write (SetInnerHTML placeholder (errorHTML message)) ;;
  finally.

(** [response.candidates?.[0]?.content?.parts ?? []] *)
Definition responseParts (response : GenerateContentResponse) : list Part :=
  match candidates response with
  | Some (candidate :: _) =>
      match content candidate with
      | Some c => default [] (parts c)
      | None => []
      end
  | _ => []
  end.

Definition dataUrlOf (b : Blob) : string :=
  "data:" +:+ interpolate (mimeType b) +:+ ";base64," +:+ interpolate (data b).

(** The body of the loop for a part that carries inline data. *)
Definition showImage (b : Blob) : Handler :=
  write (SetSrc resultImage (Href (dataUrlOf b))) ;;
  write (ClassRemove resultImage "hidden").

(** The [for] loop over the parts, with its [break]; the boolean is
    [imageFound]. *)
Fixpoint scanParts (ps : list Part) (st : State) : bool * (State * list Effect) :=
  match ps with
  | [] => (false, (st, []))
  | part :: rest =>
      match inlineData part with
      | Some b => (true, showImage b st)
      | None => scanParts rest st
      end
  end.

(** Step 6 on, once [generateContent] has fulfilled: the scan, the [throw]
    when no image was found, then [catch] and [finally]. *)
Definition processResponse (response : GenerateContentResponse) : Stretch :=
  λ st, let '(imageFound, (s1, e1)) := scanParts (responseParts response) st in
        let '(s2, e2) := (if imageFound then finally
                          else catch noImageMessage) s1 in
        (Returned, (s2, e1 ++ e2)).

(** Steps 4 and 5: the prompt, the request, and the [await] of the answer. *)
Definition submitRequest (sofar : list Part) : Stretch :=
  λ st, let request := sofar ++ [textPart (textPrompt (modelInfo st)
                                            (userDescription st) (realism st))] in
        (AwaitResponse, (st, [GenerateContent modelName request])).

(** Step 3: the model photo, if there is one. *)
Definition addModelPart (sofar : list Part) : Stretch :=
  λ st, match modelFile st with
        | Some file => (AwaitModelPart sofar file, (st, [ReadAsDataURL file]))
        | None => submitRequest sofar st
        end.

(** Step 2: the sketch, an uploaded file first. *)
Definition addSketchPart : Stretch :=
  λ st, match sketchFile st with
        | Some file => (AwaitSketchPart file, (st, [ReadAsDataURL file]))
        | None =>
            if hasDrawn st
            then run_then (emit ToDataURL)
                   (addModelPart [canvasToGenerativePart (dom st)]) st
            else addModelPart [] st
        end.

(** Step 1: the loading state. *)
Definition setLoadingState : Handler :=
  write (SetDisabled generateBtn true) ;;
  write (ClassAdd placeholder "hidden") ;;
  write (ClassAdd resultImage "hidden") ;;
  write (ClassRemove loading "hidden").

(** A call of [handleGenerateClick], up to its first suspension point. The
    new activation takes the next free slot of [frames]. *)
Definition handleGenerateClick : Handler :=
  λ st, if negb (truthy (sketchFile st)) && negb (hasDrawn st)
        then emit (Alert "Please upload or draw a sketch.") st
        else let '(fr, (s1, e1)) := run_then setLoadingState addSketchPart st in
             (set_frames (frames s1 ++ [fr]) s1, e1).

(** The activation in slot [tid] goes on with [k], when it is there. *)
Definition resume (tid : nat) (k : Stretch) : Handler :=
  λ st, let '(fr, (s1, e1)) := k st in
        (set_frames (<[tid := fr]> (frames s1)) s1, e1).

(** What an [await] does with the promise it waits for. *)
Definition await (p : Settlement Part) (k : Part → Stretch) : Stretch :=
  match p with
  | Fulfilled part => k part
  | Pending => λ st, (Stalled, (st, []))
  | Rejected message => finish (catch message)
  end.

(** The body of [reader.onloadend] outside the promise: with no result,
    [(reader.result as string).split] throws in the callback. *)
Definition readerCallback (result : option string) : Handler :=
  match result with
  | Some _ => skip
  | None => emit (Uncaught "TypeError: reader.result is null")
  end.

(** The reader of activation [tid] fires [loadend]. *)
Definition onloadend (tid : nat) (result : option string) : Handler :=
  λ st, match frames st !! tid with
        | Some (AwaitSketchPart file) =>
            resume tid
              (run_then (readerCallback result)
                 (await (fileToGenerativePart file result)
                    (λ part, addModelPart [part]))) st
        | Some (AwaitModelPart sofar file) =>
            resume tid
              (run_then (readerCallback result)
                 (await (fileToGenerativePart file result)
                    (λ part, submitRequest (sofar ++ [part])))) st
        | _ => skip st
        end.

(** The promise of [generateContent] for activation [tid] settles. *)
Definition onresponse (tid : nat) (outcome : Settlement GenerateContentResponse)
  : Handler :=
  λ st, match frames st !! tid, outcome with
        | Some AwaitResponse, Fulfilled response =>
            resume tid (processResponse response) st
        | Some AwaitResponse, Rejected message =>
            resume tid (finish (catch message)) st
        | _, _ => skip st
        end.

(** ** The event loop *)

(** What can happen to the page: the user acts, a reader finishes, the
    service answers. *)
Inductive Event :=
| SketchChange (chosen : list File)
| ModelChange (chosen : list File)
| RealismInput (v : string)
| DescriptionInput (v : string)
| ModelTypeChange (v : string)
| PointerDown (pos : Point)          (* mousedown, touchstart *)
| PointerMove (pos : Point)          (* mousemove, touchmove *)
| PointerUp                          (* mouseup, mouseleave, touchend *)
| ClearClick
| GenerateClick
| LoadEnd (tid : nat) (result : option string)
| ResponseSettled (tid : nat) (outcome : Settlement GenerateContentResponse).

(** The browser's part of an event, before any listener. *)
Definition browser (ev : Event) (d : Dom) : Dom :=
  match ev with
  | SketchChange chosen => choose_files sketchUploadInput chosen d
  | ModelChange chosen => choose_files modelUploadInput chosen d
  | RealismInput v => edit realismSlider v d
  | DescriptionInput v => edit designDescription v d
  | ModelTypeChange v => edit modelTypeSelect v d
  | _ => d
  end.

(** The listener registered for an event. A disabled button receives no
    click. *)
Definition listener (ev : Event) : Handler :=
  match ev with
  | SketchChange _ => onSketchUploadChange
  | ModelChange _ => onModelUploadChange
  | RealismInput _ => onRealismInput
  | DescriptionInput _ => skip
  | ModelTypeChange _ => skip
  | PointerDown pos => startDrawing pos
  | PointerMove pos => draw pos
  | PointerUp => stopDrawing
  | ClearClick => clearCanvas
  | GenerateClick =>
      λ st, if disabled (dom st) generateBtn then skip st
            else handleGenerateClick st
  | LoadEnd tid result => onloadend tid result
  | ResponseSettled tid outcome => onresponse tid outcome
  end.

(** The activation of [handleGenerateClick] an event belongs to. *)
Definition activation (ev : Event) (st : State) : option nat :=
  match ev with
  | GenerateClick => Some (length (frames st))
  | LoadEnd tid _ => Some tid
  | ResponseSettled tid _ => Some tid
  | _ => None
  end.

Definition Log : Type := list (option nat * Effect).

Definition step (st : State) (ev : Event) : State * Log :=
  let '(st', effects) := listener ev (set_dom (browser ev (dom st)) st) in
  (st', map (pair (activation ev st)) effects).

Fixpoint run (st : State) (evs : list Event) : State * Log :=
  match evs with
  | [] => (st, [])
  | ev :: rest =>
      let '(s1, l1) := step st ev in
      let '(s2, l2) := run s1 rest in
      (s2, l1 ++ l2)
  end.

(** The script as it is loaded in a page: the module-level variables, and
    the closing call of [updateUIState]. *)
Definition initial (page : Dom) : State :=
  (updateUIState (mkState None None false false page [])).1.

(** * What the properties are stated with *)

(** Whether [e] carries class [c] after a write, from whether it did. *)
Definition class_after (m : Mutation) (e : elem) (c : string) (before : bool)
  : bool :=
  match m with
  | ClassAdd e' c' => if elem_eqb e' e && String.eqb c' c then true else before
  | ClassRemove e' c' => if elem_eqb e' e && String.eqb c' c then false else before
  | _ => before
  end.

(** The same for the other properties: what is read after a write, from what
    was read before. *)
Definition disabled_after (m : Mutation) (e : elem) (before : bool) : bool :=
  match m with
  | SetDisabled e' b => if elem_eqb e' e then b else before
  | _ => before
  end.

Definition childNodes_after (m : Mutation) (e : elem) (before : Fragment)
  : Fragment :=
  match m with
  | SetInnerHTML e' v => if elem_eqb e' e then parsed v else before
  | _ => before
  end.

Definition src_after (m : Mutation) (e : elem) (before : Url) : Url :=
  match m with
  | SetSrc e' u => if elem_eqb e' e then u else before
  | _ => before
  end.

Definition display_after (m : Mutation) (e : elem) (before : string) : string :=
  match m with
  | SetDisplay e' v => if elem_eqb e' e then v else before
  | _ => before
  end.

Definition value_after (m : Mutation) (e : elem) (before : string) : string :=
  match m with
  | SetValue e' v => if elem_eqb e' e then v else before
  | _ => before
  end.

Definition files_after (m : Mutation) (e : elem) (before : list File)
  : list File :=
  match m with
  | SetValue e' _ =>
      if is_file_input e' && elem_eqb e' e then [] else before
  | _ => before
  end.

Definition raster_after (m : Mutation) (d : Dom) : list Segment :=
  match m with
  | ClearRect => []
  | Stroke => raster d ++ concat (map segments (path d))
  | _ => raster d
  end.

(** The loop, by the first part with inline data. *)
Fixpoint firstImage (ps : list Part) : option Blob :=
  match ps with
  | [] => None
  | part :: rest =>
      match inlineData part with
      | Some b => Some b
      | None => firstImage rest
      end
  end.

(** The activation is suspended on the encoding of an uploaded sketch. *)
Definition awaits_sketch (fr : Frame) : bool :=
  match fr with
  | AwaitSketchPart _ => true
  | _ => false
  end.

(** No uploaded sketch, and no activation working on one. *)
Definition sketch_slot_empty (st : State) : Prop :=
  sketchFile st = None ∧ Forall (λ fr, awaits_sketch fr = false) (frames st).



(** What the reader of activation [tid] delivered: the result of its
    [loadend] event, the first one for [tid] in [evs] (a reader fires it
    once). *)
Fixpoint delivered (tid : nat) (evs : list Event) : option (option string) :=
  match evs with
  | [] => None
  | LoadEnd t result :: rest =>
      if Nat.eqb t tid then Some result else delivered tid rest
  | _ :: rest => delivered tid rest
  end.

(** The part made from [file] once its read has delivered [result]; none
    when the read failed. *)
Definition read_part (file : File) (result : option string) : option Part :=
  match result with
  | Some url => Some (imagePart (base64_of url) (type file))
  | None => None
  end.

(** Activation [tid] is past the read of its sketch file, and what it holds
    and sends starts with the part [first], if the read gave one. *)
Definition after_read (tid : nat) (first : option Part) (st : State) : Prop :=
  tid < length (frames st)
  ∧ match frames st !! tid with
    | Some (AwaitSketchPart _) => False
    | Some (AwaitModelPart sofar _) =>
        ∃ part, first = Some part ∧ head sofar = Some part
    | _ => True
    end.

Definition sends_read_part (tid : nat) (first : option Part)
  (entry : option nat * Effect) : Prop :=
  ∀ model request, entry = (Some tid, GenerateContent model request) →
    ∃ part, first = Some part ∧ head request = Some part.

(** The activation has not run to its end. *)
Definition running (fr : Frame) : bool :=
  match fr with
  | Returned => false
  | _ => true
  end.

(** How many activations have not run to their end. *)
Fixpoint in_flight (frs : list Frame) : nat :=
  match frs with
  | [] => 0
  | fr :: rest => (if running fr then 1 else 0) + in_flight rest
  end.

(** The busy state of step 1. *)
Definition busy (d : Dom) : Prop :=
  disabled d generateBtn = true
  ∧ contains d placeholder "hidden" = true
  ∧ contains d resultImage "hidden" = true
  ∧ contains d loading "hidden" = false.

(** At most one activation has not returned, and while one has not, the page
    is in the busy state. *)
Definition single_flight (st : State) : Prop :=
  in_flight (frames st) = 0 ∨ (in_flight (frames st) = 1 ∧ busy (dom st)).

(** A page as the script can find it: nothing disabled, the loading
    indicator and the result image hidden, the slider half way. *)
Definition samplePage : Dom :=
  mkDom
    (λ e, match e with loading | resultImage => ["hidden"] | _ => [] end)
    (λ _, EmptyString)
    (λ _, NoUrl)
    (λ e, match e with
          | realismSlider => "50"
          | modelTypeSelect => "female"
          | _ => EmptyString
          end)
    (λ _, [])
    (λ _, false)
    (λ e, match e with realismValue => "50%" | _ => EmptyString end)
    (λ _, parsed EmptyString)
    [] [].

(** The activation waits for something that can still arrive. *)
Definition awaiting (fr : Frame) : bool :=
  match fr with
  | AwaitSketchPart _ | AwaitModelPart _ _ | AwaitResponse => true
  | _ => false
  end.

(** No activation can go on, the trigger is disabled and the indicator
    shown, and the placeholder holds [html]. *)
Definition halted (frs : list Frame) (html : string) (st : State) : Prop :=
  frames st = frs
  ∧ Forall (λ fr, awaiting fr = false) frs
  ∧ disabled (dom st) generateBtn = true
  ∧ contains (dom st) loading "hidden" = false
  ∧ childNodes (dom st) placeholder = parsed html.

(** The effects of the [catch] and [finally] blocks. *)
Definition settles (e : Effect) : bool :=
  match e with
  | ConsoleError _ => true
  | Write (SetInnerHTML _ _) => true
  | Write (SetDisabled _ false) => true
  | Write (ClassAdd e' _) => elem_eqb e' loading
  | _ => false
  end.

(** One stroke, a model photo, the trigger, and the read of the photo
    failing. *)
Definition failedRead (file : File) (others : list File) (pos : Point)
  : list Event :=
  [PointerDown pos; ModelChange (file :: others); GenerateClick; LoadEnd 0 None].

(** The two writes of the [finally] block, by activation [tid]. *)
Definition reenables (tid : nat) (entry : option nat * Effect) : bool :=
  match entry with
  | (Some t, Write (SetDisabled e false)) => Nat.eqb t tid && elem_eqb e generateBtn
  | _ => false
  end.

Definition hides_indicator (tid : nat) (entry : option nat * Effect) : bool :=
  match entry with
  | (Some t, Write (ClassAdd e c)) =>
      Nat.eqb t tid && elem_eqb e loading && String.eqb c "hidden"
  | _ => false
  end.

(** How many entries of a log [f] accepts. *)
Fixpoint tally (f : option nat * Effect → bool) (log : Log) : nat :=
  match log with
  | [] => 0
  | entry :: rest => (if f entry then 1 else 0) + tally f rest
  end.

(** 1 when activation [tid] has run to its end, 0 otherwise. *)
Definition has_returned (frs : list Frame) (tid : nat) : nat :=
  match frs !! tid with
  | Some Returned => 1
  | _ => 0
  end.

(** Whether a string holds a comma. *)
Fixpoint has_comma (s : string) : bool :=
  match s with
  | EmptyString => false
  | String c rest => Ascii.eqb c comma || has_comma rest
  end.

(** The affordances show the state: the canvas is disabled by an uploaded
    sketch, the upload control by a drawn path, the preset selector by a
    model file. *)
Definition affordances_reflect (st : State) : Prop :=
  contains (dom st) (parentElement sketchCanvas) "disabled" =
    truthy (sketchFile st)
  ∧ contains (dom st) (parentElement sketchUploadInput) "disabled" =
    hasDrawn st
  ∧ contains (dom st) modelTypeSelect "disabled" = truthy (modelFile st).

(** The events that start or resume the generation operation. *)
Definition generation_event (ev : Event) : bool :=
  match ev with
  | GenerateClick | LoadEnd _ _ | ResponseSettled _ _ => true
  | _ => false
  end.

(** The current path after a write. *)
Definition path_after (m : Mutation) (d : Dom) : list (list Point) :=
  match m with
  | BeginPath => []
  | MoveTo p => path d ++ [[p]]
  | LineTo p => line_to p (path d)
  | _ => path d
  end.

Definition textContent_after (m : Mutation) (e : elem) (before : string)
  : string :=
  match m with
  | SetTextContent e' v => if elem_eqb e' e then v else before
  | _ => before
  end.

(** Pointer events that would draw, and pointer events that do not start a
    stroke. *)
Definition draws (ev : Event) : bool :=
  match ev with
  | PointerDown _ | PointerMove _ => true
  | _ => false
  end.

Definition moves_or_lifts (ev : Event) : bool :=
  match ev with
  | PointerMove _ | PointerUp => true
  | _ => false
  end.

(** The percentage shown beside the slider is the slider's value. *)
Definition label_mirrors_slider (st : State) : Prop :=
  textContent (dom st) realismValue = value (dom st) realismSlider +:+ "%".

(** An entry by which activation [tid] sends its request. *)
Definition sends (tid : nat) (entry : option nat * Effect) : bool :=
  match entry with
  | (Some t, GenerateContent _ _) => Nat.eqb t tid
  | _ => false
  end.

(** 1 while activation [tid] has not started or has its request still to
    send, 0 once the request is sent or can no longer be. *)
Definition request_ahead (frs : list Frame) (tid : nat) : nat :=
  match frs !! tid with
  | Some (AwaitSketchPart _) | Some (AwaitModelPart _ _) | None => 1
  | Some _ => 0
  end.

(** An effect that stays on the page. *)
Definition local_write (entry : option nat * Effect) : bool :=
  match entry with
  | (None, Write _) => true
  | _ => false
  end.

(** Sample inputs: an encoder for the canvas, two files, a state with both
    an uploaded sketch and a drawn path, a page where one stroke was started
    and generation triggered, an answer whose second part is the image, and
    the request sent for the drawn sketch. *)
Definition sampleEncoder : list Segment → string :=
  λ _, "data:image/png;base64,iVBORw0KGgo=".

Definition sampleSketch : File := mkFile "sketch.png" "image/png".

Definition uploadedAndDrawn : State :=
  mkState (Some sampleSketch) None false true samplePage [].

Definition oneStroke : list Event := [PointerDown (1, 1)%Z].

Definition sampleImage : Blob := mkBlob (Some "AAAA") (Some "image/png").

Definition sampleResponse : GenerateContentResponse :=
  mkResponse
    (Some [mkCandidate
             (Some (mkContent
                      (Some [textPart "Here is the photo.";
                             mkPart (Some sampleImage) None])))]).

Definition sampleRequest : list Part :=
  [imagePart (Some "iVBORw0KGgo=") "image/png";
   textPart (textPrompt "a female model" "a stunning fashion design" "50")].

Definition sampleModel : File := mkFile "model.jpg" "image/jpeg".

Definition textOnly : Candidate :=
  mkCandidate (Some (mkContent (Some [textPart "I cannot draw this."]))).

Definition withImage : Candidate :=
  mkCandidate (Some (mkContent (Some [mkPart (Some sampleImage) None]))).

(** One stroke, a model photo, the trigger, and the description edited
    while the photo is being read. *)
Definition editedWhileReading : list Event :=
  [PointerDown (1, 1)%Z; ModelChange [sampleModel]; GenerateClick;
   DescriptionInput "red silk gown"].

(** * Properties *)

(** ** Reading the DOM after a write *)

Lemma code_inj (e e' : elem) : code e = code e' → e = e'.
Proof.
  revert e'. induction e as [| | | | | | | | | | | | | | |e IH];
    intros [| | | | | | | | | | | | | | |e']; simpl; intros H;
    try reflexivity; try lia.
  f_equal. apply IH. lia.
Qed.

Lemma elem_eqb_eq (e e' : elem) : elem_eqb e e' = true ↔ e = e'.
Proof.
  unfold elem_eqb. rewrite Nat.eqb_eq. split; [apply code_inj | by intros ->].
Qed.

Lemma decide_elem_eqb {A : Type} (e e' : elem) (x y : A) :
  (if decide (e = e') then x else y) = (if elem_eqb e e' then x else y).
Proof.
  destruct (decide (e = e')) as [Heq | Hne], (elem_eqb e e') eqn:Hb; try done.
  - apply elem_eqb_eq in Heq. congruence.
  - apply elem_eqb_eq in Hb. done.
Qed.

Lemma fn_insert_eqb {A : Type} (f : elem → A) (e e' : elem) (x : A) :
  <[e := x]> f e' = if elem_eqb e e' then x else f e'.
Proof. unfold insert, fn_insert. apply decide_elem_eqb. Qed.

Lemma elem_of_token_add (c c' : string) (l : list string) :
  c ∈ token_add c' l ↔ c = c' ∨ c ∈ l.
Proof.
  unfold token_add. case_bool_decide as Hin.
  - intuition congruence.
  - rewrite elem_of_app, list_elem_of_singleton. tauto.
Qed.

Lemma elem_of_token_remove (c c' : string) (l : list string) :
  c ∈ token_remove c' l ↔ c ≠ c' ∧ c ∈ l.
Proof. unfold token_remove. by rewrite list_elem_of_filter. Qed.

Lemma contains_apply (m : Mutation) (d : Dom) (e : elem) (c : string) :
  contains (apply m d) e c = class_after m e c (contains d e c).
Proof.
  unfold contains.
  destruct m as [e' c'|e' c'| | | | | | | | | | |]; simpl; try reflexivity.
  - rewrite fn_insert_eqb. destruct (elem_eqb e' e) eqn:He; [|done].
    apply elem_eqb_eq in He as ->. simpl.
    destruct (String.eqb_spec c' c) as [-> | Hc].
    + apply bool_decide_eq_true. apply elem_of_token_add. auto.
    + apply bool_decide_ext. rewrite elem_of_token_add. intuition congruence.
  - rewrite fn_insert_eqb. destruct (elem_eqb e' e) eqn:He; [|done].
    apply elem_eqb_eq in He as ->. simpl.
    destruct (String.eqb_spec c' c) as [-> | Hc].
    + apply bool_decide_eq_false. rewrite elem_of_token_remove. tauto.
    + apply bool_decide_ext. rewrite elem_of_token_remove. intuition congruence.
Qed.

Lemma disabled_apply (m : Mutation) (d : Dom) (e : elem) :
  disabled (apply m d) e = disabled_after m e (disabled d e).
Proof. destruct m; simpl; try reflexivity. apply fn_insert_eqb. Qed.

Lemma childNodes_apply (m : Mutation) (d : Dom) (e : elem) :
  childNodes (apply m d) e = childNodes_after m e (childNodes d e).
Proof. destruct m; simpl; try reflexivity. apply fn_insert_eqb. Qed.

Lemma src_apply (m : Mutation) (d : Dom) (e : elem) :
  src (apply m d) e = src_after m e (src d e).
Proof. destruct m; simpl; try reflexivity. apply fn_insert_eqb. Qed.

Lemma display_apply (m : Mutation) (d : Dom) (e : elem) :
  display (apply m d) e = display_after m e (display d e).
Proof. destruct m; simpl; try reflexivity. apply fn_insert_eqb. Qed.

Lemma value_apply (m : Mutation) (d : Dom) (e : elem) :
  value (apply m d) e = value_after m e (value d e).
Proof. destruct m; simpl; try reflexivity. apply fn_insert_eqb. Qed.

Lemma files_apply (m : Mutation) (d : Dom) (e : elem) :
  files (apply m d) e = files_after m e (files d e).
Proof.
  destruct m; simpl; try reflexivity.
  destruct (is_file_input _); [apply fn_insert_eqb | reflexivity].
Qed.

Lemma raster_apply (m : Mutation) (d : Dom) :
  raster (apply m d) = raster_after m d.
Proof. destruct m; reflexivity. Qed.

Lemma contains_browser (ev : Event) (d : Dom) (e : elem) (c : string) :
  contains (browser ev d) e c = contains d e c.
Proof. destruct ev; reflexivity. Qed.

Lemma disabled_browser (ev : Event) (d : Dom) (e : elem) :
  disabled (browser ev d) e = disabled d e.
Proof. destruct ev; reflexivity. Qed.

Lemma childNodes_browser (ev : Event) (d : Dom) (e : elem) :
  childNodes (browser ev d) e = childNodes d e.
Proof. destruct ev; reflexivity. Qed.

Lemma files_choose_files (e e' : elem) (fs : list File) (d : Dom) :
  files (choose_files e fs d) e' = if elem_eqb e e' then fs else files d e'.
Proof. apply fn_insert_eqb. Qed.

Lemma scanParts_firstImage (ps : list Part) (st : State) :
  scanParts ps st =
  match firstImage ps with
  | Some b => (true, showImage b st)
  | None => (false, (st, []))
  end.
Proof.
  induction ps as [|part rest IH]; simpl; [reflexivity|].
  destruct (inlineData part); [reflexivity | apply IH].
Qed.

(** Running a listener symbolically, on a state given field by field: the
    listeners and their combinators unfold, the writes stay folded, and what
    is read back from the DOM goes through the lemmas above. *)
Ltac exec :=
  cbv beta iota zeta delta
    [step listener activation onSketchUploadChange onModelUploadChange
     onRealismInput startDrawing draw stopDrawing clearCanvas updateUIState
     handleGenerateClick onloadend onresponse setLoadingState addSketchPart
     addModelPart submitRequest processResponse readerCallback await
     fileToGenerativePart base64EncodedDataPromise catch finally showImage
     andThen run_then finish resume write emit skip set_sketchFile
     set_modelFile set_isDrawing set_hasDrawn set_frames set_dom browser
     sketchFile modelFile isDrawing hasDrawn dom frames truthy negb andb orb
     fst snd];
  cbn [app map].

Ltac read_dom :=
  rewrite ?contains_apply, ?disabled_apply, ?childNodes_apply, ?src_apply,
    ?display_apply, ?value_apply, ?files_apply, ?raster_apply,
    ?files_choose_files;
  cbn [class_after disabled_after childNodes_after src_after display_after
       value_after files_after raster_after is_file_input elem_eqb code
       Nat.eqb Nat.add String.eqb Ascii.eqb Bool.eqb andb].

(** A case split on what the listener reads and cannot be computed. *)
Ltac split_case :=
  match goal with
  | |- context [match ?x with _ => _ end] =>
      lazymatch x with
      | context [match _ with _ => _ end] => fail
      | _ => destruct x eqn:?
      end
  end.

Ltac crunch :=
  repeat first
    [ progress rewrite scanParts_firstImage
    | progress exec
    | progress read_dom
    | split_case
    | progress simplify_eq ].

Ltac fields st :=
  destruct st as [[?sf|] [?mf|] ?isd ?hd ?d ?frs].

(** ** Runs *)

Lemma run_app (st : State) (evs1 evs2 : list Event) :
  run st (evs1 ++ evs2) =
  ((run (run st evs1).1 evs2).1, (run st evs1).2 ++ (run (run st evs1).1 evs2).2).
Proof.
  revert st. induction evs1 as [|ev evs1 IH]; intros st; simpl.
  - by destruct (run st evs2).
  - destruct (step st ev) as [s1 l1]. rewrite IH.
    destruct (run s1 evs1) as [s2 l2]; simpl.
    destruct (run s2 evs2) as [s3 l3]; simpl.
    by rewrite <- app_assoc.
Qed.

(** An invariant of the steps holds along every run, and so does what it
    guarantees about the effects of a step. *)
Lemma run_invariant (I : State → Prop) (P : option nat * Effect → Prop) :
  (∀ st ev, I st → I (step st ev).1 ∧ Forall P (step st ev).2) →
  ∀ evs st, I st → I (run st evs).1 ∧ Forall P (run st evs).2.
Proof.
  intros Hstep. induction evs as [|ev evs IH]; intros st HI; simpl.
  - split; [done | constructor].
  - destruct (Hstep st ev HI) as [HI1 HP1].
    destruct (step st ev) as [s1 l1]; simpl in *.
    destruct (IH s1 HI1) as [HI2 HP2].
    destruct (run s1 evs) as [s2 l2]; simpl in *.
    split; [done | by apply Forall_app_2].
Qed.

Lemma run_invariant_state (I : State → Prop) :
  (∀ st ev, I st → I (step st ev).1) →
  ∀ evs st, I st → I (run st evs).1.
Proof.
  intros Hstep evs st HI.
  apply (run_invariant I (λ _, True)); [|done].
  intros s ev Hs. split; [by apply Hstep | by apply Forall_true].
Qed.

(** Closing a goal about the frames after a step. *)
Ltac frames_ok :=
  repeat first
    [ done
    | apply Forall_app_2
    | apply Forall_insert
    | apply Forall_cons_2
    | apply Forall_nil_2 ].

(** ** The sketch slot *)

Lemma step_sketch_slot_empty (st : State) (ev : Event) :
  sketch_slot_empty st → sketch_slot_empty (step st ev).1.
Proof.
  unfold sketch_slot_empty. intros [Hs Hf]. fields st; destruct ev; crunch.
  all: split; [done | frames_ok].
Qed.

Lemma initial_sketch_slot_empty (page : Dom) : sketch_slot_empty (initial page).
Proof. unfold initial. crunch. split; [done | constructor]. Qed.

(** C2. After the script has loaded, whatever listeners have run to
    completion, [sketchFile] is null; so no activation of the generation
    operation ever waits for the encoding of an uploaded sketch, and
    [startDrawing] never returns at its guard. *)
Theorem sketchFile_null_after_every_listener (page : Dom) (evs : list Event) :
  let st := (run (initial page) evs).1 in
  sketchFile st = None
  ∧ Forall (λ fr, awaits_sketch fr = false) (frames st)
  ∧ ∀ pos, startDrawing pos st =
           (set_isDrawing true ;; set_hasDrawn true ;; updateUIState ;;
            write BeginPath ;; write (MoveTo pos)) st.
Proof.
  intros st.
  destruct (run_invariant_state sketch_slot_empty step_sketch_slot_empty evs
              (initial page) (initial_sketch_slot_empty page)) as [Hs Hf].
  fold st in Hs, Hf. split; [done | split; [done |]].
  intros pos. unfold startDrawing. by rewrite Hs.
Qed.

(** C1. Choosing a sketch file leaves no uploaded sketch behind: the
    listener stores the file and then calls [clearCanvas], which sets
    [sketchFile] back to null, empties the input and hides the preview, so
    the drawing surface is not disabled. *)
Theorem sketch_upload_is_discarded
  (st : State) (file : File) (others : list File) :
  let st' := (step st (SketchChange (file :: others))).1 in
  sketchFile st' = None
  ∧ contains (dom st') (parentElement sketchCanvas) "disabled" = false
  ∧ display (dom st') sketchPreview = "none"
  ∧ files (dom st') sketchUploadInput = [].
Proof. fields st; crunch; done. Qed.

(** C4. With no uploaded sketch and nothing drawn, [handleGenerateClick]
    only shows the notice: no file is read, the canvas is not encoded, no
    request is sent, and the state, the DOM included, is what it was. *)
Theorem generate_without_sketch (st : State) :
  sketchFile st = None → hasDrawn st = false →
  handleGenerateClick st = (st, [Alert "Please upload or draw a sketch."])
  ∧ (step st GenerateClick).1 = st
  ∧ Forall (λ entry, ∃ msg, entry.2 = Alert msg) (step st GenerateClick).2.
Proof.
  intros Hs Hd. destruct st as [sf mf isd hd d frs]. simpl in Hs, Hd. subst.
  crunch; split_and!; try done; frames_ok; eauto.
Qed.

(** C8. [clearCanvas] wipes the whole canvas, sets [hasDrawn] to false and
    [sketchFile] to null, empties the upload input, and leaves the model
    file and the selected model type alone. *)
Theorem clearCanvas_resets_sketch_only (st : State) :
  let st' := (clearCanvas st).1 in
  raster (dom st') = []
  ∧ hasDrawn st' = false
  ∧ sketchFile st' = None
  ∧ value (dom st') sketchUploadInput = EmptyString
  ∧ files (dom st') sketchUploadInput = []
  ∧ modelFile st' = modelFile st
  ∧ files (dom st') modelUploadInput = files (dom st) modelUploadInput
  ∧ value (dom st') modelTypeSelect = value (dom st) modelTypeSelect.
Proof. fields st; crunch; done. Qed.

(** ** The model slot *)



(** ** The shape of a request *)

Lemma step_keeps_model_file (st : State) (ev : Event) :
  truthy (modelFile st) = true → truthy (modelFile (step st ev).1) = true.
Proof. intros H. fields st; simpl in H; try done; destruct ev; crunch; done. Qed.

Lemma canvas_part_after_write (m : Mutation) (d : Dom) :
  raster (apply m d) = raster d →
  canvasToGenerativePart (apply m d) = canvasToGenerativePart d.
Proof. unfold canvasToGenerativePart. by intros ->. Qed.

(** Where an activation that waits for the model photo comes from, when no
    sketch file is in play: it waited already, or this is the click that
    started it, on a drawn canvas and with that photo as model file. *)
Lemma model_wait_origin
  (st : State) (ev : Event) (tid : nat) (sofar : list Part) (photo : File) :
  sketch_slot_empty st →
  frames (step st ev).1 !! tid = Some (AwaitModelPart sofar photo) →
  frames st !! tid = Some (AwaitModelPart sofar photo)
  ∨ (ev = GenerateClick ∧ tid = length (frames st) ∧ hasDrawn st = true
     ∧ modelFile st = Some photo
     ∧ sofar = [canvasToGenerativePart (dom st)]).
Proof.
  intros [Hs Hall]. fields st; simpl in Hs, Hall; try done; destruct ev; crunch.
  all: repeat match goal with
         | H : ?l !! ?i = Some ?fr, HF : Forall _ ?l |- _ =>
             pose proof (Forall_lookup_1 _ _ _ _ HF H);
             pose proof (lookup_lt_Some _ _ _ H); clear HF
         end.
  all: try done.
  all: try match goal with
         | |- context [<[?t0 := _]> ?l !! _] =>
             destruct (decide (t0 = tid)) as [-> | Hne];
             [ rewrite list_lookup_insert_eq by lia
             | rewrite list_lookup_insert_ne by done ]
         end.
  all: try match goal with
         | |- context [(?l ++ [?fr]) !! _] =>
             destruct (decide (tid < length l));
             [ rewrite lookup_app_l by lia
             | destruct (decide (tid = length l)) as [-> | ?];
               [ rewrite list_lookup_middle by done
               | rewrite (lookup_ge_None_2 (l ++ [fr]) tid)
                   by (rewrite length_app; simpl; lia) ] ]
         end.
  all: intros Hfr; try done; try (by left).
  all: simplify_eq; right; split_and!; try done.
  all: unfold canvasToGenerativePart; by read_dom.
Qed.

Lemma model_wait_history
  (page : Dom) (evs : list Event) (tid : nat) (sofar : list Part) (photo : File) :
  frames (run (initial page) evs).1 !! tid = Some (AwaitModelPart sofar photo) →
  ∃ before during,
    evs = before ++ GenerateClick :: during
    ∧ length (frames (run (initial page) before).1) = tid
    ∧ hasDrawn (run (initial page) before).1 = true
    ∧ modelFile (run (initial page) before).1 = Some photo
    ∧ sofar = [canvasToGenerativePart (dom (run (initial page) before).1)].
Proof.
  induction evs as [|ev evs IH] using rev_ind; intros Hfr.
  { assert (frames (initial page) = []) as Hnone by (unfold initial; by crunch).
    cbn [run fst] in Hfr. by rewrite Hnone, lookup_nil in Hfr. }
  rewrite run_app in Hfr. cbn [fst] in Hfr.
  assert ((run (run (initial page) evs).1 [ev]).1 =
          (step (run (initial page) evs).1 ev).1) as Hone.
  { simpl. by destruct (step _ ev). }
  rewrite Hone in Hfr.
  pose proof (run_invariant_state sketch_slot_empty step_sketch_slot_empty evs
                (initial page) (initial_sketch_slot_empty page)) as Hempty.
  destruct (model_wait_origin _ _ _ _ _ Hempty Hfr)
    as [Hold | (-> & -> & Hd & Hm & ->)].
  - destruct (IH Hold) as (before & during & -> & H).
    exists before, (during ++ [ev]). split; [| done].
    by rewrite <- app_assoc.
  - exists evs, []. done.
Qed.

Lemma step_sends_request
  (st : State) (ev : Event) (tag : option nat) (model : string)
  (request : list Part) :
  sketch_slot_empty st →
  (tag, GenerateContent model request) ∈ (step st ev).2 →
  model = modelName
  ∧ ((ev = GenerateClick ∧ hasDrawn st = true ∧ modelFile st = None
      ∧ request =
        [canvasToGenerativePart (dom st);
         textPart (textPrompt
                     ("a " +:+ value (dom st) modelTypeSelect +:+ " model")
                     (userDescription st) (realism st))])
     ∨ (∃ tid url sofar photo,
          ev = LoadEnd tid (Some url) ∧ tag = Some tid
          ∧ frames st !! tid = Some (AwaitModelPart sofar photo)
          ∧ request =
            sofar ++
            [imagePart (base64_of url) (type photo);
             textPart (textPrompt (modelInfo st) (userDescription st)
                         (realism st))])).
Proof.
  intros [Hs Hall]. fields st; simpl in Hs, Hall; try done; destruct ev; crunch.
  all: repeat match goal with
         | H : ?l !! ?i = Some ?fr, HF : Forall _ ?l |- _ =>
             pose proof (Forall_lookup_1 _ _ _ _ HF H); clear HF
         end.
  all: try done.
  all: intros Hin;
    repeat (apply elem_of_cons in Hin as [Hin | Hin]; [simplify_eq |]);
    try (by apply elem_of_nil in Hin).
  all: split; [done |].
  all: try (right; eexists _, _, _, _; split_and!; try done;
            by rewrite <- app_assoc).
  all: left; split_and!; try done.
  all: unfold canvasToGenerativePart, modelInfo, userDescription, realism;
    cbn [modelFile dom truthy]; by read_dom.
Qed.

(** C9. Every request the loaded script sends goes to the image model and
    holds, in this order: the sketch, which is the canvas as it was when the
    trigger was clicked, encoded as PNG; then the model photo, exactly when
    there was a model file at the click, made from what the read of that
    file delivered and carrying its type; then one text part. The text is
    the template of the source with, in its places, the uploaded model or
    else the selected preset, the description or else the default phrase,
    and the value of the realism slider, all as they are when the request is
    sent. *)
Theorem request_parts_in_order
  (page : Dom) (evs : list Event) (ev : Event)
  (tag : option nat) (model : string) (request : list Part) :
  let st := fst (run (initial page) evs) in
  (tag, GenerateContent model request) ∈ snd (step st ev) →
  let description :=
    if bool_decide (value (dom st) designDescription = EmptyString)
    then "a stunning fashion design"
    else value (dom st) designDescription in
  let percentage := value (dom st) realismSlider in
  let prompt := λ who,
    newline +:+
    "          Transform the provided clothing sketch into a hyperrealistic, photorealistic runway photo." +:+ newline +:+
    "          Have " +:+ who +:+ " wear this design." +:+ newline +:+
    "          Render the fabric, shimmer, style, and other details exactly as described in the following text: " +:+ dquote +:+ description +:+ dquote +:+ "." +:+ newline +:+
    "          The realism level must be " +:+ percentage +:+ "%." +:+ newline +:+
    "          Ensure the final image looks like high-quality professional photography, not an AI-generated image." +:+ newline +:+
    "          The output must be a single, cohesive, photorealistic image of the new design on the model." +:+ newline +:+
    "        " in
  model = "gemini-2.5-flash-image-preview"
  ∧ ((ev = GenerateClick ∧ tag = Some (length (frames st))
      ∧ hasDrawn st = true ∧ modelFile st = None
      ∧ request =
        [imagePart (base64_of (toDataURL (raster (dom st)))) "image/png";
         textPart (prompt ("a " +:+ value (dom st) modelTypeSelect +:+ " model"))])
     ∨ (∃ tid url photo before during,
          ev = LoadEnd tid (Some url) ∧ tag = Some tid
          ∧ evs = before ++ GenerateClick :: during
          ∧ length (frames (fst (run (initial page) before))) = tid
          ∧ hasDrawn (fst (run (initial page) before)) = true
          ∧ modelFile (fst (run (initial page) before)) = Some photo
          ∧ modelFile st ≠ None
          ∧ request =
            [imagePart
               (base64_of
                  (toDataURL (raster (dom (fst (run (initial page) before))))))
               "image/png";
             imagePart (base64_of url) (type photo);
             textPart (prompt "the uploaded model")])).
Proof.
  intros st Hin description percentage prompt.
  pose proof (run_invariant_state sketch_slot_empty step_sketch_slot_empty evs
                (initial page) (initial_sketch_slot_empty page)) as Hempty.
  fold st in Hempty.
  destruct (step_sends_request st ev tag model request Hempty Hin)
    as [-> [(-> & Hd & Hm & ->) | (tid & url & sofar & photo & -> & -> & Hfr & ->)]].
  - split; [done |]. left. split_and!; try done.
    revert Hin. destruct st as [sf mf isd hd d frs]. simpl in Hd, Hm. subst.
    crunch; intros Hin.
    all: repeat (apply elem_of_cons in Hin as [Hin | Hin]; [by simplify_eq |]).
    all: by apply elem_of_nil in Hin.
  - split; [done |]. right.
    destruct (model_wait_history page evs tid sofar photo Hfr)
      as (before & during & Hevs & Hlen & Hd & Hm & ->).
    assert (truthy (modelFile st) = true) as Hkept.
    { subst st. rewrite Hevs, run_app. cbn [fst].
      apply run_invariant_state; [apply step_keeps_model_file |].
      by rewrite Hm. }
    exists tid, url, photo, before, during. split_and!; try done.
    + by destruct (modelFile st).
    + unfold modelInfo. rewrite Hkept. done.
Qed.

(** ** The sketch part of a request *)

Lemma step_after_read
  (tid : nat) (first : option Part) (st : State) (ev : Event) :
  after_read tid first st →
  after_read tid first (step st ev).1
  ∧ Forall (sends_read_part tid first) (step st ev).2.
Proof.
  intros [Hlt Hfr].
  fields st; simpl in Hlt, Hfr; destruct ev; crunch.
  all: unfold after_read; cbn [frames].
  all: rewrite ?length_app, ?length_insert.
  all: try (rewrite lookup_app_l by lia).
  all: try match goal with
         | Heq : ?l !! ?t0 = Some _ |- context [<[?t0 := _]> ?l !! ?t] =>
             destruct (decide (t0 = t)) as [-> | Hne];
             [ rewrite list_lookup_insert_eq by lia; rewrite Heq in Hfr
             | rewrite list_lookup_insert_ne by done ]
         end.
  all: try done.
  all: (split; [split; [simpl; lia | try done] |]).
  all: try (repeat (apply Forall_cons_2;
                    [by (intros ???; simplify_eq; try lia) |]);
            apply Forall_nil_2).
  all: try (apply Forall_cons_2; [| apply Forall_nil_2];
            intros ? ? ?; simplify_eq).
  all: destruct Hfr as (part & -> & Hhead); exists part; split; [done |].
  all: destruct sofar; [done |]; by cbn [head app] in *.
Qed.

Lemma step_sketch_wait
  (tid : nat) (file : File) (st : State) (ev : Event) :
  frames st !! tid = Some (AwaitSketchPart file) →
  (∀ result, ev ≠ LoadEnd tid result) →
  frames (step st ev).1 !! tid = Some (AwaitSketchPart file)
  ∧ Forall (sends_read_part tid None) (step st ev).2.
Proof.
  intros Hfr Hev. pose proof (lookup_lt_Some _ _ _ Hfr) as Hlt.
  fields st; cbn [frames] in *; destruct ev; crunch.
  all: try (rewrite lookup_app_l by lia).
  all: try match goal with
         | Heq : ?l !! ?t0 = Some _ |- context [<[?t0 := _]> ?l !! ?t] =>
             destruct (decide (t0 = t)) as [-> | Hne];
             [ try (by (exfalso; eapply Hev)); simplify_eq
             | rewrite list_lookup_insert_ne by done ]
         end.
  all: split; [done |].
  all: repeat (apply Forall_cons_2;
               [by (intros ???; simplify_eq; try lia) |]);
    apply Forall_nil_2.
Qed.

Lemma step_sketch_read
  (tid : nat) (file : File) (st : State) (result : option string) :
  frames st !! tid = Some (AwaitSketchPart file) →
  after_read tid (read_part file result) (step st (LoadEnd tid result)).1
  ∧ Forall (sends_read_part tid (read_part file result))
      (step st (LoadEnd tid result)).2.
Proof.
  intros Hfr. pose proof (lookup_lt_Some _ _ _ Hfr) as Hlt.
  fields st; cbn [frames] in *; exec; rewrite Hfr; destruct result; exec.
  all: unfold after_read; cbn [frames read_part];
    rewrite length_insert, list_lookup_insert_eq by lia.
  all: split; [split; [done | try done; by eexists] |].
  all: repeat (apply Forall_cons_2;
               [by (intros ???; simplify_eq; try (by eexists)) |]);
    apply Forall_nil_2.
Qed.

Lemma run_from_sketch_wait
  (tid : nat) (file : File) (evs : list Event) (st : State)
  (model : string) (request : list Part) :
  frames st !! tid = Some (AwaitSketchPart file) →
  (Some tid, GenerateContent model request) ∈ (run st evs).2 →
  ∃ url, delivered tid evs = Some (Some url)
         ∧ head request = Some (imagePart (base64_of url) (type file)).
Proof.
  revert st. induction evs as [|ev evs IH]; intros st Hfr Hin; simpl in Hin.
  { by apply elem_of_nil in Hin. }
  assert ((∃ result, ev = LoadEnd tid result) ∨ ∀ result, ev ≠ LoadEnd tid result)
    as [[result ->] | Hother].
  { destruct ev; try (right; by intros ?).
    destruct (decide (tid0 = tid)) as [-> | Hne]; [left; by eexists |].
    right. intros ? ?. simplify_eq. }
  - destruct (step_sketch_read tid file st result Hfr) as [Hafter Hlog1].
    destruct (step st (LoadEnd tid result)) as [s1 l1]; simpl in *.
    destruct (run_invariant _ _ (step_after_read tid (read_part file result))
                evs s1 Hafter) as [_ Hlog2].
    destruct (run s1 evs) as [s2 l2]; simpl in *.
    assert (Forall (sends_read_part tid (read_part file result)) (l1 ++ l2))
      as Hall by (by apply Forall_app_2).
    rewrite Forall_forall in Hall.
    destruct (Hall _ Hin model request eq_refl) as (part & Hpart & Hhead).
    rewrite Nat.eqb_refl. destruct result as [url |]; [| done].
    exists url. simpl in Hpart. by simplify_eq.
  - destruct (step_sketch_wait tid file st ev Hfr Hother) as [Hfr1 Hlog1].
    destruct (step st ev) as [s1 l1]; simpl in *.
    specialize (IH s1 Hfr1).
    destruct (run s1 evs) as [s2 l2]; simpl in *.
    apply elem_of_app in Hin as [Hin | Hin].
    + rewrite Forall_forall in Hlog1.
      by destruct (Hlog1 _ Hin model request eq_refl) as (? & ? & _).
    + destruct (IH Hin) as (url & Hd & Hhead). exists url. split; [| done].
      destruct ev; try done.
      destruct (Nat.eqb_spec tid0 tid) as [-> | _]; [| done].
      by exfalso; eapply Hother.
Qed.

(** C7. When generation is triggered with an uploaded sketch in place,
    drawn path or not, the file is read and the canvas is not encoded. When
    the reader delivers the data URL of the file, the part made from it, the
    payload of that URL with the file's type, becomes the first part: of the
    request, sent at once when there is no model file, or of what the
    activation holds while the model photo is read. Whatever happens in
    between, a request this activation sends starts with that part. The
    canvas is encoded only when there is no file. *)
Theorem uploaded_sketch_takes_priority (st : State) (file : File) :
  sketchFile st = Some file → hasDrawn st = true →
  let tid := length (frames st) in
  let started := handleGenerateClick st in
  frames (fst started) !! tid = Some (AwaitSketchPart file)
  ∧ ReadAsDataURL file ∈ snd started
  ∧ (ToDataURL ∉ snd started)
  ∧ (∀ st' url,
       frames st' !! tid = Some (AwaitSketchPart file) →
       let next := step st' (LoadEnd tid (Some url)) in
       match modelFile st' with
       | None =>
           snd next =
           [(Some tid,
             GenerateContent modelName
               [imagePart (base64_of url) (type file);
                textPart (textPrompt (modelInfo st') (userDescription st')
                            (realism st'))])]
       | Some photo =>
           snd next = [(Some tid, ReadAsDataURL photo)]
           ∧ frames (fst next) !! tid =
             Some (AwaitModelPart [imagePart (base64_of url) (type file)] photo)
       end)
  ∧ (∀ evs model request,
       (Some tid, GenerateContent model request) ∈ snd (run (fst started) evs) →
       ∃ url, delivered tid evs = Some (Some url)
              ∧ head request = Some (imagePart (base64_of url) (type file)))
  ∧ (∀ st', ToDataURL ∈ snd (handleGenerateClick st') → sketchFile st' = None).
Proof.
  intros Hs Hd tid started.
  assert (frames (fst started) = frames st ++ [AwaitSketchPart file]
          ∧ snd started = [Write (SetDisabled generateBtn true);
                         Write (ClassAdd placeholder "hidden");
                         Write (ClassAdd resultImage "hidden");
                         Write (ClassRemove loading "hidden");
                         ReadAsDataURL file]) as [Hfr Hlog].
  { subst started tid. destruct st as [sf mf isd hd d frs].
    simpl in Hs, Hd. subst. by crunch. }
  rewrite Hfr, Hlog. split_and!.
  - subst tid. by rewrite list_lookup_middle.
  - do 4 apply list_elem_of_further. apply list_elem_of_here.
  - intros Hin. repeat (apply elem_of_cons in Hin as [Hin | Hin]; [done |]).
    by apply elem_of_nil in Hin.
  - intros st' url Hfr'. pose proof (lookup_lt_Some _ _ _ Hfr') as Hlt.
    destruct st' as [sf' [photo|] isd' hd' d' frs']; cbn [frames modelFile] in *.
    all: exec; rewrite Hfr'; exec.
    + split; [done |]. by apply list_lookup_insert_eq.
    + done.
  - intros evs model request Hin.
    apply (run_from_sketch_wait tid file evs (fst started) model request);
      [| done].
    rewrite Hfr. subst tid. by rewrite list_lookup_middle.
  - intros st' Hin. destruct st' as [[sf|] mf isd hd d frs]; [exfalso | done].
    revert Hin. crunch; intros Hin.
    all: repeat (apply elem_of_cons in Hin as [Hin | Hin]; [done |]).
    all: by apply elem_of_nil in Hin.
Qed.

(** ** One generation at a time *)

Lemma in_flight_app (frs frs' : list Frame) :
  in_flight (frs ++ frs') = in_flight frs + in_flight frs'.
Proof. induction frs as [|fr frs IH]; simpl; [done | lia]. Qed.

Lemma in_flight_insert (frs : list Frame) (i : nat) (fr fr' : Frame) :
  frs !! i = Some fr →
  in_flight (<[i := fr']> frs) + (if running fr then 1 else 0) =
  in_flight frs + (if running fr' then 1 else 0).
Proof.
  revert i. induction frs as [|fr0 frs IH]; intros [|i] H; simpl in *;
    simplify_eq; [lia |].
  specialize (IH i H). lia.
Qed.

Lemma step_single_flight (st : State) (ev : Event) :
  single_flight st → single_flight (step st ev).1.
Proof.
  intros H. fields st; destruct ev; crunch.
  all: unfold single_flight, busy in *; cbn [dom frames] in *; read_dom.
  all: rewrite ?in_flight_app; cbn [in_flight running].
  all: try match goal with
         | Heq : ?l !! ?i = Some ?fr |- context [<[?i := ?fr']> ?l] =>
             pose proof (in_flight_insert l i fr fr' Heq) as Hins;
             cbn [running] in Hins
         end.
  all: try done.
  all: destruct H as [H0 | (H1 & Hd & Hp & Hr & Hl)].
  all: try congruence.
  all: first [ left; lia | right; split; [lia | by split_and!] ].
Qed.

Lemma initial_single_flight (page : Dom) : single_flight (initial page).
Proof. unfold initial. crunch. by left. Qed.

Lemma in_flight_lookup (frs : list Frame) (i : nat) (fr : Frame) :
  frs !! i = Some fr → running fr = true → (1 ≤ in_flight frs)%nat.
Proof.
  revert i. induction frs as [|fr0 frs IH]; intros [|i] H Hr; simpl in *;
    simplify_eq.
  - rewrite Hr. lia.
  - specialize (IH i H Hr). lia.
Qed.

Lemma firstImage_found (before rest : list Part) (part : Part) (b : Blob) :
  Forall (λ p, inlineData p = None) before → inlineData part = Some b →
  firstImage (before ++ part :: rest) = Some b.
Proof.
  intros Hb Hp. induction Hb as [|p before Hnone _ IH]; simpl.
  - by rewrite Hp.
  - by rewrite Hnone.
Qed.

Lemma firstImage_none (ps : list Part) :
  Forall (λ p, inlineData p = None) ps → firstImage ps = None.
Proof. intros H. induction H as [|p ps Hnone _ IH]; simpl; [done | by rewrite Hnone]. Qed.

(** C5. When the answer arrives, its parts are scanned in order: the first
    part with inline data becomes the result, the source of the result image
    being the data URL made of that part's type and data, and the image is
    shown; no later part is looked at. With no such part the operation fails
    with the no-image error: the error is logged, the placeholder comes back
    with the markup of the error banner around that message, and the result
    image stays hidden. *)
Theorem first_image_part_is_shown
  (page : Dom) (evs : list Event) (tid : nat)
  (response : GenerateContentResponse) :
  let st := fst (run (initial page) evs) in
  frames st !! tid = Some AwaitResponse →
  let after := step st (ResponseSettled tid (Fulfilled response)) in
  (∀ before part b rest,
     responseParts response = before ++ part :: rest →
     Forall (λ p, inlineData p = None) before →
     inlineData part = Some b →
     let url :=
       "data:" +:+ interpolate (mimeType b) +:+ ";base64," +:+
       interpolate (data b) in
     src (dom (fst after)) resultImage = Href url
     ∧ contains (dom (fst after)) resultImage "hidden" = false
     ∧ snd after =
         map (pair (Some tid))
           [Write (SetSrc resultImage (Href url));
            Write (ClassRemove resultImage "hidden");
            Write (ClassAdd loading "hidden");
            Write (SetDisabled generateBtn false)])
  ∧ (Forall (λ p, inlineData p = None) (responseParts response) →
     let message := "API response did not contain an image." in
     let banner :=
       "<p style=" +:+ dquote +:+ "color: red;" +:+ dquote +:+
       ">An error occurred. Please try again.<br><small>" +:+ message +:+
       "</small></p>" in
     snd after =
       map (pair (Some tid))
         [ConsoleError message;
          Write (ClassRemove placeholder "hidden");
          Write (SetInnerHTML placeholder banner);
          Write (ClassAdd loading "hidden");
          Write (SetDisabled generateBtn false)]
     ∧ contains (dom (fst after)) placeholder "hidden" = false
     ∧ childNodes (dom (fst after)) placeholder = parsed banner
     ∧ contains (dom (fst after)) resultImage "hidden" = true
     ∧ src (dom (fst after)) resultImage = src (dom st) resultImage).
Proof.
  intros st Hfr after.
  assert (single_flight st) as Hsf.
  { apply run_invariant_state; [apply step_single_flight |].
    apply initial_single_flight. }
  assert (busy (dom st)) as (_ & _ & Hhidden & _).
  { pose proof (in_flight_lookup _ _ _ Hfr eq_refl).
    destruct Hsf as [? | [_ ?]]; [lia | done]. }
  subst after. clearbody st. destruct st as [sf mf isd hd d frs].
  cbn [dom frames] in *. split.
  - intros before part b rest Hparts Hbefore Hpart.
    exec. rewrite Hfr. rewrite scanParts_firstImage, Hparts.
    rewrite (firstImage_found before rest part b Hbefore Hpart).
    crunch. unfold dataUrlOf. done.
  - intros Hnone. exec. rewrite Hfr.
    rewrite scanParts_firstImage, (firstImage_none _ Hnone).
    crunch. unfold errorHTML, noImageMessage. by rewrite Hhidden.
Qed.

(** ** A read that fails *)

Lemma step_halted (frs : list Frame) (html : string) (st : State) (ev : Event) :
  halted frs html st →
  halted frs html (step st ev).1
  ∧ Forall (λ entry, settles entry.2 = false) (step st ev).2.
Proof.
  intros (Hfr & Hall & Hd & Hl & Hh).
  fields st; cbn [frames dom] in *; subst; destruct ev; crunch.
  all: repeat match goal with
         | H : ?l !! ?i = Some ?fr, HF : Forall _ ?l |- _ =>
             pose proof (Forall_lookup_1 _ _ _ _ HF H); clear H
         end.
  all: try done; try congruence.
  all: unfold halted; cbn [frames dom]; read_dom.
  all: split; [by split_and! | frames_ok].
Qed.

Lemma failedRead_halted (file : File) (others : list File) (pos : Point) :
  halted [Stalled] EmptyString
    (run (initial samplePage) (failedRead file others pos)).1.
Proof. unfold halted. split_and!; try by vm_compute. repeat constructor. Qed.

(** C3. For a file that cannot be read, the promise of
    [fileToGenerativePart] is not rejected: it stays pending, and for no
    result of the read is it ever rejected. In a run where the read of the
    model photo fails, the activation is left where it waits, nothing is
    logged and no failure message is ever put in the placeholder. *)
Theorem failed_read_is_not_rejected
  (file : File) (others : list File) (pos : Point) (evs : list Event) :
  fileToGenerativePart file None = Pending
  ∧ (∀ result message, fileToGenerativePart file result ≠ Rejected message)
  ∧ let r := run (initial samplePage) (failedRead file others pos ++ evs) in
    frames (fst r) = [Stalled]
    ∧ childNodes (dom (fst r)) placeholder = parsed EmptyString
    ∧ Forall (λ entry, ∀ msg, snd entry ≠ ConsoleError msg) (snd r).
Proof.
  split; [done |]. split; [by intros [?|] ? |].
  cbn zeta. rewrite run_app. cbn [fst snd].
  destruct (run_invariant _ _ (step_halted [Stalled] EmptyString) evs _
              (failedRead_halted file others pos)) as [(Hfr & _ & _ & _ & Hh) Hlog].
  split_and!; try done.
  apply Forall_app_2.
  - vm_compute. repeat constructor; by intros ?.
  - eapply Forall_impl; [exact Hlog |]. intros [? []] H ? ?; by simplify_eq.
Qed.

(** C6 (what the code does). In a run where the read of the model photo
    fails, the busy state is entered and never left: whatever happens next,
    the trigger stays disabled, the indicator stays shown, and the [finally]
    block of that activation never runs. *)
Theorem busy_state_never_left_after_failed_read
  (file : File) (others : list File) (pos : Point) (evs : list Event) :
  let r := run (initial samplePage) (failedRead file others pos ++ evs) in
  disabled (dom (fst r)) generateBtn = true
  ∧ contains (dom (fst r)) loading "hidden" = false
  ∧ (Some 0, Write (SetDisabled generateBtn true)) ∈ snd r
  ∧ ((Some 0, Write (SetDisabled generateBtn false)) ∉ snd r)
  ∧ ((Some 0, Write (ClassAdd loading "hidden")) ∉ snd r).
Proof.
  cbn zeta. rewrite run_app. cbn [fst snd].
  destruct (run_invariant _ _ (step_halted [Stalled] EmptyString) evs _
              (failedRead_halted file others pos)) as [(_ & _ & Hd & Hl & _) Hlog].
  rewrite Forall_forall in Hlog.
  split_and!; try done.
  - apply elem_of_app. left. vm_compute.
    repeat first [apply list_elem_of_here | apply list_elem_of_further].
  - intros [Hin | Hin]%elem_of_app.
    + vm_compute in Hin.
      repeat (apply elem_of_cons in Hin as [Hin | Hin]; [done |]).
      by apply elem_of_nil in Hin.
    + by specialize (Hlog _ Hin).
  - intros [Hin | Hin]%elem_of_app.
    + vm_compute in Hin.
      repeat (apply elem_of_cons in Hin as [Hin | Hin]; [done |]).
      by apply elem_of_nil in Hin.
    + by specialize (Hlog _ Hin).
Qed.

(** ** The cleanup of an activation that settles *)

Lemma tally_app f (log log' : Log) :
  tally f (log ++ log') = tally f log + tally f log'.
Proof. induction log as [|entry log IH]; simpl; [done | lia]. Qed.

Lemma step_cleanup (tid : nat) (st : State) (ev : Event) :
  tid < length (frames st) →
  tid < length (frames (step st ev).1)
  ∧ tally (reenables tid) (step st ev).2 + has_returned (frames st) tid =
    has_returned (frames (step st ev).1) tid
  ∧ tally (hides_indicator tid) (step st ev).2 + has_returned (frames st) tid =
    has_returned (frames (step st ev).1) tid.
Proof.
  intros Hlt. fields st; cbn [frames] in *; destruct ev; crunch.
  all: unfold has_returned; rewrite ?length_app, ?length_insert.
  all: try (rewrite lookup_app_l by lia).
  all: try match goal with
         | Heq : ?l !! ?t0 = Some _ |- context [<[?t0 := _]> ?l !! ?t] =>
             destruct (decide (t0 = t)) as [-> | Hne];
             [ rewrite list_lookup_insert_eq by lia; rewrite Heq
             | rewrite list_lookup_insert_ne by done ]
         end.
  all: cbn [tally reenables hides_indicator elem_eqb code Nat.eqb String.eqb
            Ascii.eqb Bool.eqb andb];
    rewrite ?Nat.eqb_refl, ?andb_false_r; cbn [andb].
  all: try match goal with
         | Hne : ?t0 ≠ ?t |- _ => rewrite (proj2 (Nat.eqb_neq t0 t) Hne)
         end.
  all: cbn [andb]; split_and!; try (simpl; lia).
Qed.

Lemma run_cleanup (tid : nat) (evs : list Event) (st : State) :
  tid < length (frames st) →
  tally (reenables tid) (run st evs).2 + has_returned (frames st) tid =
    has_returned (frames (run st evs).1) tid
  ∧ tally (hides_indicator tid) (run st evs).2 + has_returned (frames st) tid =
    has_returned (frames (run st evs).1) tid.
Proof.
  revert st. induction evs as [|ev evs IH]; intros st Hlt; simpl; [done |].
  destruct (step_cleanup tid st ev Hlt) as (Hlt1 & Hr1 & Hh1).
  destruct (step st ev) as [s1 l1]; simpl in *.
  destruct (IH s1 Hlt1) as [Hr2 Hh2].
  destruct (run s1 evs) as [s2 l2]; simpl in *.
  rewrite !tally_app. lia.
Qed.

(** X6. An activation that passes the check of its first lines has, at any
    later time, run the two writes of its [finally] block once each if it has
    returned, and not at all if it has not. *)
Lemma cleanup_exactly_once (st : State) (evs : list Event) :
  truthy (sketchFile st) || hasDrawn st = true →
  let tid := length (frames st) in
  let started := handleGenerateClick st in
  let r := run (fst started) evs in
  let log := map (pair (Some tid)) (snd started) ++ snd r in
  tally (reenables tid) log = has_returned (frames (fst r)) tid
  ∧ tally (hides_indicator tid) log = has_returned (frames (fst r)) tid.
Proof.
  intros Hpre tid started r log.
  assert (tid < length (frames (fst started))
          ∧ has_returned (frames (fst started)) tid = 0
          ∧ tally (reenables tid) (map (pair (Some tid)) (snd started)) = 0
          ∧ tally (hides_indicator tid) (map (pair (Some tid)) (snd started)) = 0)
    as (Hlt & H0 & Hr0 & Hh0).
  { subst started tid. revert Hpre. fields st; destruct hd; try done; intros _.
    all: crunch; unfold has_returned; rewrite length_app, list_lookup_middle by done.
    all: cbn [tally reenables hides_indicator map length];
      rewrite ?Nat.eqb_refl;
      cbn [elem_eqb code Nat.eqb String.eqb Ascii.eqb Bool.eqb andb Nat.add].
    all: split_and!; try done; lia. }
  destruct (run_cleanup tid evs (fst started) Hlt) as [Hr Hh].
  subst log r. rewrite !tally_app. lia.
Qed.

(** ** Data URLs *)

Lemma split_without_comma (s : string) :
  has_comma s = false → split comma s = [s].
Proof.
  induction s as [|c s IH]; simpl; [done |].
  intros [Hc Hs]%orb_false_elim. rewrite Hc, (IH Hs). done.
Qed.

Lemma split_at_first_comma (header rest : string) :
  has_comma header = false →
  split comma (header +:+ String comma rest) = header :: split comma rest.
Proof.
  induction header as [|c header IH]; simpl.
  - intros _. done.
  - intros [Hc Hs]%orb_false_elim. rewrite Hc, (IH Hs). done.
Qed.

Lemma base64_of_data_url (header payload : string) :
  has_comma header = false → has_comma payload = false →
  base64_of (header +:+ "," +:+ payload) = Some payload.
Proof.
  intros Hh Hp. unfold base64_of.
  change ("," +:+ payload) with (String comma payload).
  by rewrite (split_at_first_comma _ _ Hh), (split_without_comma _ Hp).
Qed.

(** X1. For a data URL made of a header, a comma and a payload, neither
    holding a comma, the part made from a file carries exactly the payload
    and the file's declared type, and the part made from the canvas carries
    the payload and the type image/png. *)
Theorem part_carries_the_payload
  (file : File) (d : Dom) (header payload : string) :
  has_comma header = false → has_comma payload = false →
  fileToGenerativePart file (Some (header +:+ "," +:+ payload)) =
    Fulfilled (imagePart (Some payload) (type file))
  ∧ (toDataURL (raster d) = header +:+ "," +:+ payload →
     canvasToGenerativePart d = imagePart (Some payload) "image/png").
Proof.
  intros Hh Hp. split.
  - unfold fileToGenerativePart, base64EncodedDataPromise.
    by rewrite (base64_of_data_url _ _ Hh Hp).
  - intros Hurl. unfold canvasToGenerativePart.
    by rewrite Hurl, (base64_of_data_url _ _ Hh Hp).
Qed.

(** X2. When the result of the read holds no comma, the promise is still
    fulfilled, with a part whose data is undefined; and a payload that holds
    a comma is cut at it. *)
Theorem part_of_a_url_without_comma (file : File) (url : string) :
  has_comma url = false →
  fileToGenerativePart file (Some url) = Fulfilled (imagePart None (type file))
  ∧ ∀ payload more,
      has_comma payload = false →
      fileToGenerativePart file
        (Some (url +:+ "," +:+ payload +:+ "," +:+ more)) =
        Fulfilled (imagePart (Some payload) (type file)).
Proof.
  intros Hu. split.
  - unfold fileToGenerativePart, base64EncodedDataPromise, base64_of.
    by rewrite (split_without_comma _ Hu).
  - intros payload more Hp.
    unfold fileToGenerativePart, base64EncodedDataPromise, base64_of.
    change ("," +:+ payload +:+ "," +:+ more)
      with (String comma (payload +:+ String comma more)).
    by rewrite (split_at_first_comma _ _ Hu), (split_at_first_comma _ _ Hp).
Qed.


(** ** The affordances *)

Lemma other_class_untouched (x e : elem) (c : string) :
  ¬ (c = "disabled" ∧ e = x) →
  elem_eqb x e && String.eqb "disabled" c = false.
Proof.
  intros H. destruct (elem_eqb x e) eqn:He; [| done].
  apply elem_eqb_eq in He as ->.
  destruct (String.eqb_spec "disabled" c) as [<- | _]; [| done].
  by destruct H.
Qed.

(** X3. [updateUIState] makes the three affordances show the state and
    changes nothing else: every class other than [disabled] on the canvas
    wrapper, the upload wrapper and the preset selector is as it was, and so
    are the other properties of the page, the canvas, the variables and the
    activations. Running it again changes nothing that can be read from the
    classes. *)
Theorem updateUIState_reflects_state (st : State) :
  let st' := fst (updateUIState st) in
  affordances_reflect st'
  ∧ sketchFile st' = sketchFile st ∧ modelFile st' = modelFile st
  ∧ isDrawing st' = isDrawing st ∧ hasDrawn st' = hasDrawn st
  ∧ frames st' = frames st
  ∧ (∀ e c,
       ¬ (c = "disabled"
          ∧ (e = parentElement sketchCanvas
             ∨ e = parentElement sketchUploadInput ∨ e = modelTypeSelect)) →
       contains (dom st') e c = contains (dom st) e c)
  ∧ display (dom st') = display (dom st) ∧ src (dom st') = src (dom st)
  ∧ value (dom st') = value (dom st) ∧ files (dom st') = files (dom st)
  ∧ disabled (dom st') = disabled (dom st)
  ∧ textContent (dom st') = textContent (dom st)
  ∧ childNodes (dom st') = childNodes (dom st)
  ∧ raster (dom st') = raster (dom st) ∧ path (dom st') = path (dom st)
  ∧ (∀ e c, contains (dom (fst (updateUIState st'))) e c =
            contains (dom st') e c).
Proof.
  unfold affordances_reflect. split_and!.
  1-8: by (fields st; destruct hd; crunch).
  - intros e c Hc. fields st; destruct hd; exec.
    all: rewrite !contains_apply; unfold class_after.
    all: rewrite !other_class_untouched; try done.
    all: intros [-> ->]; apply Hc; auto.
  - by (fields st; destruct hd; exec).
  - by (fields st; destruct hd; exec).
  - by (fields st; destruct hd; exec).
  - by (fields st; destruct hd; exec).
  - by (fields st; destruct hd; exec).
  - by (fields st; destruct hd; exec).
  - by (fields st; destruct hd; exec).
  - by (fields st; destruct hd; exec).
  - by (fields st; destruct hd; exec).
  - intros e c. fields st; destruct hd; exec.
    all: rewrite !contains_apply; unfold class_after.
    all: repeat case_match; done.
Qed.

Lemma step_affordances_reflect (st : State) (ev : Event) :
  affordances_reflect st → affordances_reflect (step st ev).1.
Proof.
  unfold affordances_reflect. intros (Hc & Hu & Hm).
  fields st; destruct ev; crunch.
  all: cbn [dom sketchFile modelFile hasDrawn truthy] in *.
  all: by rewrite ?Hc, ?Hu, ?Hm.
Qed.

Lemma initial_affordances_reflect (page : Dom) :
  affordances_reflect (initial page).
Proof. unfold affordances_reflect, initial. crunch. done. Qed.

(** X4. From the moment the script has loaded, the affordances show the
    state after every event: the upload control is disabled exactly while
    something has been drawn, the preset selector exactly while there is a
    model file, and the drawing surface is never disabled. *)
Theorem affordances_always_reflect_state (page : Dom) (evs : list Event) :
  let st := fst (run (initial page) evs) in
  contains (dom st) (parentElement sketchUploadInput) "disabled" = hasDrawn st
  ∧ contains (dom st) modelTypeSelect "disabled" = truthy (modelFile st)
  ∧ contains (dom st) (parentElement sketchCanvas) "disabled" = false.
Proof.
  intros st.
  destruct (run_invariant_state affordances_reflect step_affordances_reflect
              evs (initial page) (initial_affordances_reflect page))
    as (Hc & Hu & Hm).
  destruct (run_invariant_state sketch_slot_empty step_sketch_slot_empty evs
              (initial page) (initial_sketch_slot_empty page)) as [Hs _].
  fold st in Hc, Hu, Hm, Hs. rewrite Hs in Hc. done.
Qed.

(** ** Overlapping requests *)

Lemma disabled_click_is_dropped (st : State) :
  disabled (dom st) generateBtn = true → step st GenerateClick = (st, []).
Proof. intros Hd. destruct st as [sf mf isd hd d frs]. exec. simpl in Hd. by rewrite Hd. Qed.

(** X5. From the moment the script has loaded, at most one activation of the
    generation operation has not returned; while one has not, the page is in
    the busy state and a click on the trigger does nothing. *)
Theorem one_generation_at_a_time (page : Dom) (evs : list Event) :
  let st := fst (run (initial page) evs) in
  (in_flight (frames st) ≤ 1)%nat
  ∧ (in_flight (frames st) = 1 →
     busy (dom st) ∧ step st GenerateClick = (st, [])).
Proof.
  intros st.
  assert (single_flight st) as [H0 | [H1 Hb]].
  { apply run_invariant_state; [apply step_single_flight |].
    apply initial_single_flight. }
  - split; [lia | intros ?; lia].
  - split; [lia |]. intros _. split; [done |].
    apply disabled_click_is_dropped. by destruct Hb.
Qed.

(** ** A request that fails *)

Lemma awaited_response_is_busy (page : Dom) (evs : list Event) (tid : nat) :
  let st := fst (run (initial page) evs) in
  frames st !! tid = Some AwaitResponse →
  in_flight (frames st) = 1 ∧ busy (dom st).
Proof.
  intros st Hfr.
  assert (single_flight st) as Hsf.
  { apply run_invariant_state; [apply step_single_flight |].
    apply initial_single_flight. }
  pose proof (in_flight_lookup _ _ _ Hfr eq_refl).
  destruct Hsf as [? | ?]; [lia | done].
Qed.

(** X7. When the request is rejected, the error's message is logged and the
    placeholder comes back, its content replaced by what the parser makes of
    the error banner with the message put in it as it is; the result image
    stays hidden, the indicator is hidden and the trigger enabled again; the
    activation has returned and none is left in flight. *)
Theorem rejected_request_is_shown
  (page : Dom) (evs : list Event) (tid : nat) (message : string) :
  let st := fst (run (initial page) evs) in
  frames st !! tid = Some AwaitResponse →
  let after := step st (ResponseSettled tid (Rejected message)) in
  let banner :=
    "<p style=" +:+ dquote +:+ "color: red;" +:+ dquote +:+
    ">An error occurred. Please try again.<br><small>" +:+ message +:+
    "</small></p>" in
  snd after =
    map (pair (Some tid))
      [ConsoleError message;
       Write (ClassRemove placeholder "hidden");
       Write (SetInnerHTML placeholder banner);
       Write (ClassAdd loading "hidden");
       Write (SetDisabled generateBtn false)]
  ∧ childNodes (dom (fst after)) placeholder = parsed banner
  ∧ contains (dom (fst after)) placeholder "hidden" = false
  ∧ contains (dom (fst after)) resultImage "hidden" = true
  ∧ contains (dom (fst after)) loading "hidden" = true
  ∧ disabled (dom (fst after)) generateBtn = false
  ∧ frames (fst after) !! tid = Some Returned
  ∧ in_flight (frames (fst after)) = 0.
Proof.
  intros st Hfr after banner.
  pose proof (awaited_response_is_busy page evs tid Hfr) as Hb.
  cbn zeta in Hb. fold st in Hb. destruct Hb as (H1 & _ & _ & Hr & _).
  subst after. clearbody st. destruct st as [sf mf isd hd d frs].
  cbn [dom frames] in *.
  pose proof (in_flight_insert frs tid AwaitResponse Returned Hfr) as Hins.
  pose proof (lookup_lt_Some _ _ _ Hfr) as Hlt.
  exec. rewrite Hfr. crunch. rewrite Hr. unfold errorHTML.
  split_and!; try done.
  - by apply list_lookup_insert_eq.
  - simpl in Hins. lia.
Qed.

(** X8. Only the first candidate of the answer is read: when it carries no
    part with inline data the operation fails with the no-image error,
    whatever the other candidates hold; an answer with no candidates at all
    fails the same way. *)
Theorem only_first_candidate_is_read
  (page : Dom) (evs : list Event) (tid : nat)
  (first : Candidate) (others : list Candidate) :
  let st := fst (run (initial page) evs) in
  frames st !! tid = Some AwaitResponse →
  Forall (λ p, inlineData p = None)
    (responseParts (mkResponse (Some [first]))) →
  ∀ response,
    response = mkResponse (Some (first :: others))
    ∨ response = mkResponse (Some []) ∨ response = mkResponse None →
    let after := step st (ResponseSettled tid (Fulfilled response)) in
    (Some tid, ConsoleError noImageMessage) ∈ snd after
    ∧ childNodes (dom (fst after)) placeholder = parsed (errorHTML noImageMessage)
    ∧ contains (dom (fst after)) resultImage "hidden" = true
    ∧ src (dom (fst after)) resultImage = src (dom st) resultImage.
Proof.
  intros st Hfr Hnone response Hresp after.
  pose proof (awaited_response_is_busy page evs tid Hfr) as Hb.
  cbn zeta in Hb. fold st in Hb. destruct Hb as (_ & _ & _ & Hr & _).
  assert (firstImage (responseParts response) = None) as Hfirst.
  { destruct Hresp as [-> | [-> | ->]]; [| done | done].
    by apply firstImage_none. }
  subst after. clearbody st. destruct st as [sf mf isd hd d frs].
  cbn [dom frames] in *.
  exec. rewrite Hfr. rewrite scanParts_firstImage, Hfirst.
  crunch. rewrite Hr. split_and!; try done.
  apply list_elem_of_here.
Qed.

(** ** What is read when *)

(** X9. When the read of the model photo ends well, the request is sent at
    once: its model part is made from the file whose read was started, even
    when another file has been chosen since, and its prompt is built from
    what the controls hold now, not from what they held when the trigger was
    clicked. *)
Theorem request_uses_current_controls
  (st : State) (tid : nat) (sofar : list Part) (file : File) (url : string) :
  frames st !! tid = Some (AwaitModelPart sofar file) →
  let after := step st (LoadEnd tid (Some url)) in
  snd after =
    [(Some tid,
      GenerateContent modelName
        (sofar ++ [imagePart (base64_of url) (type file)] ++
         [textPart (textPrompt (modelInfo st) (userDescription st)
                      (realism st))]))]
  ∧ frames (fst after) !! tid = Some AwaitResponse
  ∧ dom (fst after) = dom st.
Proof.
  intros Hfr after. subst after.
  pose proof (lookup_lt_Some _ _ _ Hfr) as Hlt.
  destruct st as [sf mf isd hd d frs]. cbn [dom frames] in *.
  exec. rewrite Hfr. exec. rewrite <- app_assoc.
  split_and!; try done. by apply list_lookup_insert_eq.
Qed.

(** X10. The generation operation never touches the sketch or the model:
    whatever event starts or resumes it, the four variables, the canvas, the
    controls' values and the chosen files are what they were. *)
Theorem generation_leaves_inputs_alone (st : State) (ev : Event) :
  generation_event ev = true →
  let st' := fst (step st ev) in
  sketchFile st' = sketchFile st ∧ modelFile st' = modelFile st
  ∧ isDrawing st' = isDrawing st ∧ hasDrawn st' = hasDrawn st
  ∧ raster (dom st') = raster (dom st) ∧ path (dom st') = path (dom st)
  ∧ (∀ e, value (dom st') e = value (dom st) e)
  ∧ (∀ e, files (dom st') e = files (dom st) e).
Proof.
  intros Hev. split_and!.
  1-6: by (fields st; destruct ev; try done; crunch).
  all: intros e; fields st; destruct ev; try done; crunch.
  all: rewrite ?value_apply, ?files_apply; done.
Qed.

(** ** Drawing *)

Lemma path_apply (m : Mutation) (d : Dom) :
  path (apply m d) = path_after m d.
Proof. by destruct m. Qed.

Lemma textContent_apply (m : Mutation) (d : Dom) (e : elem) :
  textContent (apply m d) e = textContent_after m e (textContent d e).
Proof. destruct m; simpl; try reflexivity. apply fn_insert_eqb. Qed.

Lemma step_move_extends (st : State) (pts : list Point) (q : Point) :
  sketchFile st = None → isDrawing st = true → path (dom st) = [pts] →
  let st' := fst (step st (PointerMove q)) in
  sketchFile st' = None ∧ isDrawing st' = true ∧ hasDrawn st' = hasDrawn st
  ∧ path (dom st') = [pts ++ [q]]
  ∧ raster (dom st') = raster (dom st) ++ segments (pts ++ [q]).
Proof.
  intros Hs Hi Hp. destruct st as [sf mf isd hd d frs]. cbn [sketchFile isDrawing dom] in *.
  subst. exec. rewrite !path_apply, !raster_apply.
  cbn [path_after raster_after]. rewrite !path_apply. cbn [path_after].
  rewrite Hp. cbn [line_to map concat]. rewrite app_nil_r. done.
Qed.

Lemma segments_app_subseteq (pts : list Point) (q : Point) (seg : Segment) :
  seg ∈ segments pts → seg ∈ segments (pts ++ [q]).
Proof.
  induction pts as [|p [|p' pts] IH]; simpl; intros Hin.
  - by apply elem_of_nil in Hin.
  - by apply elem_of_nil in Hin.
  - apply elem_of_cons in Hin as [-> | Hin]; [apply list_elem_of_here |].
    apply list_elem_of_further. by apply IH.
Qed.

Lemma moves_extend (qs : list Point) (st : State) (pts : list Point) :
  sketchFile st = None → isDrawing st = true → path (dom st) = [pts] →
  (∀ seg, seg ∈ segments pts → seg ∈ raster (dom st)) →
  let st' := fst (run st (map PointerMove qs)) in
  sketchFile st' = None ∧ isDrawing st' = true ∧ hasDrawn st' = hasDrawn st
  ∧ path (dom st') = [pts ++ qs]
  ∧ (∀ seg, seg ∈ segments (pts ++ qs) → seg ∈ raster (dom st')).
Proof.
  revert st pts. induction qs as [|q qs IH]; intros st pts Hs Hi Hp Hr; simpl.
  - rewrite app_nil_r. done.
  - destruct (step_move_extends st pts q Hs Hi Hp) as (Hs1 & Hi1 & Hd1 & Hp1 & Hr1).
    destruct (step st (PointerMove q)) as [s1 l1]; simpl in *.
    assert (∀ seg, seg ∈ segments (pts ++ [q]) → seg ∈ raster (dom s1)) as Hr1'.
    { intros seg Hin. rewrite Hr1. apply elem_of_app. by right. }
    destruct (IH s1 (pts ++ [q]) Hs1 Hi1 Hp1 Hr1') as (Hs2 & Hi2 & Hd2 & Hp2 & Hr2).
    destruct (run s1 (map PointerMove qs)) as [s2 l2]; simpl in *.
    rewrite <- app_assoc in Hp2, Hr2. simpl in Hp2, Hr2.
    split_and!; try done. congruence.
Qed.

(** X11. With no uploaded sketch, a press at [p] followed by moves through
    [qs] leaves one path, from [p] through [qs] in order, every segment of
    it stroked on the canvas, and the sketch marked as drawn. *)
Theorem stroke_follows_the_pointer (st : State) (p : Point) (qs : list Point) :
  sketchFile st = None →
  let st' := fst (run st (PointerDown p :: map PointerMove qs)) in
  path (dom st') = [p :: qs]
  ∧ (∀ seg, seg ∈ segments (p :: qs) → seg ∈ raster (dom st'))
  ∧ hasDrawn st' = true ∧ isDrawing st' = true ∧ sketchFile st' = None.
Proof.
  intros Hs st'.
  assert (let s1 := fst (step st (PointerDown p)) in
          sketchFile s1 = None ∧ isDrawing s1 = true ∧ hasDrawn s1 = true
          ∧ path (dom s1) = [[p]]) as (Hs1 & Hi1 & Hd1 & Hp1).
  { destruct st as [sf [mf|] isd hd d frs]; simpl in Hs; subst; exec.
    all: rewrite !path_apply; cbn [path_after]; rewrite !path_apply; done. }
  subst st'. simpl.
  destruct (step st (PointerDown p)) as [s1 l1]; simpl in *.
  destruct (moves_extend qs s1 [p] Hs1 Hi1 Hp1) as (Hs2 & Hi2 & Hd2 & Hp2 & Hr2).
  { intros seg Hin. by apply elem_of_nil in Hin. }
  destruct (run s1 (map PointerMove qs)) as [s2 l2]; simpl in *.
  split_and!; try done. congruence.
Qed.

(** X12. While an uploaded sketch is in place, presses and moves on the
    canvas do nothing at all. *)
Theorem drawing_is_ignored_with_an_upload
  (st : State) (file : File) (evs : list Event) :
  sketchFile st = Some file → Forall (λ ev, draws ev = true) evs →
  run st evs = (st, []).
Proof.
  intros Hs Hall. induction Hall as [|ev evs Hev _ IH]; simpl; [done |].
  assert (step st ev = (st, [])) as ->.
  { destruct st as [sf mf isd hd d frs]; simpl in Hs; subst.
    destruct ev; try done; destruct isd; by exec. }
  by rewrite IH.
Qed.

(** X13. Outside a stroke, moves and releases of the pointer do nothing at
    all. *)
Theorem moves_are_ignored_outside_a_stroke (st : State) (evs : list Event) :
  isDrawing st = false → Forall (λ ev, moves_or_lifts ev = true) evs →
  run st evs = (st, []).
Proof.
  intros Hi Hall. induction Hall as [|ev evs Hev _ IH]; simpl; [done |].
  assert (step st ev = (st, [])) as ->.
  { destruct st as [sf mf isd hd d frs]; simpl in Hi; subst.
    destruct ev; try done; by exec. }
  by rewrite IH.
Qed.

(** X14. A clear in the middle of a stroke does not end the stroke: the
    current path survives it, so the next move strokes the whole path again
    on the wiped canvas, while [hasDrawn] stays false and a click on the
    trigger is refused. *)
Theorem clear_does_not_end_a_stroke (st : State) (q : Point) :
  isDrawing st = true →
  let st' := fst (run st [ClearClick; PointerMove q]) in
  isDrawing st' = true ∧ hasDrawn st' = false
  ∧ path (dom st') = line_to q (path (dom st))
  ∧ raster (dom st') = concat (map segments (line_to q (path (dom st))))
  ∧ handleGenerateClick st' = (st', [Alert "Please upload or draw a sketch."]).
Proof.
  intros Hi. destruct st as [sf [mf|] isd hd d frs]; simpl in Hi; subst.
  all: cbn [run]; exec.
  all: rewrite !path_apply, !raster_apply; cbn [path_after raster_after].
  all: rewrite !path_apply, !raster_apply; cbn [path_after raster_after].
  all: done.
Qed.

(** X15. Choosing a sketch file wipes the canvas and leaves nothing drawn
    and no file, so a click on the trigger right after it is refused with
    the notice. *)
Theorem generate_after_upload_is_refused
  (st : State) (file : File) (others : list File) :
  let st' := fst (step st (SketchChange (file :: others))) in
  hasDrawn st' = false ∧ raster (dom st') = []
  ∧ handleGenerateClick st' = (st', [Alert "Please upload or draw a sketch."]).
Proof. fields st; crunch; done. Qed.

(** X16. A press on the canvas alone, with no move, already counts as a
    drawn sketch: nothing is stroked, yet the trigger is no longer refused
    and the canvas as it is gets encoded. *)
Theorem press_counts_as_a_sketch (st : State) (p : Point) :
  sketchFile st = None →
  let st' := fst (step st (PointerDown p)) in
  hasDrawn st' = true ∧ raster (dom st') = raster (dom st)
  ∧ contains (dom st') (parentElement sketchUploadInput) "disabled" = true
  ∧ ToDataURL ∈ snd (handleGenerateClick st').
Proof.
  intros Hs. destruct st as [sf [mf|] isd hd d frs]; simpl in Hs; subst.
  all: crunch; split_and!; try done.
  all: repeat first [apply list_elem_of_here | apply list_elem_of_further].
Qed.

(** ** The controls *)

Lemma value_browser_slider (ev : Event) (d : Dom) :
  value (browser ev d) realismSlider =
  match ev with
  | RealismInput v => v
  | _ => value d realismSlider
  end.
Proof. destruct ev; try reflexivity; cbn [browser edit value]; by rewrite fn_insert_eqb. Qed.

Lemma textContent_browser (ev : Event) (d : Dom) (e : elem) :
  textContent (browser ev d) e = textContent d e.
Proof. by destruct ev. Qed.

Lemma step_label_mirrors_slider (st : State) (ev : Event) :
  label_mirrors_slider st ∨ (∃ v, ev = RealismInput v) →
  label_mirrors_slider (step st ev).1.
Proof.
  unfold label_mirrors_slider. intros H.
  assert (∀ v, ev = RealismInput v →
            textContent (dom (step st ev).1) realismValue =
            value (dom (step st ev).1) realismSlider +:+ "%") as Hinput.
  { intros v ->. destruct st as [sf mf isd hd d frs]. exec.
    rewrite textContent_apply, value_apply.
    cbn [textContent_after value_after elem_eqb code Nat.eqb]. done. }
  destruct H as [H | [v ->]]; [| by eapply Hinput].
  destruct ev; try (by eapply Hinput).
  all: fields st; cbn [dom] in H; crunch.
  all: rewrite ?textContent_apply, ?value_apply;
    cbn [textContent_after value_after browser choose_files edit
         textContent value];
    rewrite ?fn_insert_eqb; cbn [elem_eqb code Nat.eqb].
  all: try done.
Qed.

(** X17. Once the slider has been moved, the percentage shown beside it is
    the slider's value followed by a percent sign, after every later event. *)
Theorem label_follows_the_slider (st : State) (v : string) (evs : list Event) :
  let st' := fst (run st (RealismInput v :: evs)) in
  textContent (dom st') realismValue = value (dom st') realismSlider +:+ "%".
Proof.
  intros st'. subst st'. cbn [run].
  assert (label_mirrors_slider (step st (RealismInput v)).1) as H1.
  { apply step_label_mirrors_slider. right. by exists v. }
  destruct (step st (RealismInput v)) as [s1 l1]. cbn [fst] in *.
  pose proof (run_invariant_state label_mirrors_slider
                (λ s ev Hs, step_label_mirrors_slider s ev (or_introl Hs))
                evs s1 H1) as H2.
  by destruct (run s1 evs).
Qed.

(** X18. A change event with no file chosen (a cancelled dialog) changes
    nothing the script keeps and writes nothing: a drawing or a model photo
    that was there is still there. *)
Theorem empty_selection_changes_nothing (st : State) :
  step st (SketchChange []) =
    (set_dom (choose_files sketchUploadInput [] (dom st)) st, [])
  ∧ step st (ModelChange []) =
    (set_dom (choose_files modelUploadInput [] (dom st)) st, [])
  ∧ (∀ ev, ev = SketchChange [] ∨ ev = ModelChange [] →
       let st' := fst (step st ev) in
       sketchFile st' = sketchFile st ∧ modelFile st' = modelFile st
       ∧ hasDrawn st' = hasDrawn st ∧ raster (dom st') = raster (dom st)
       ∧ (∀ e c, contains (dom st') e c = contains (dom st) e c)).
Proof.
  split_and!.
  - destruct st as [sf mf isd hd d frs]. exec.
    rewrite files_choose_files. by cbn [elem_eqb code Nat.eqb].
  - destruct st as [sf mf isd hd d frs]. exec.
    rewrite files_choose_files. by cbn [elem_eqb code Nat.eqb].
  - intros ev [-> | ->]; destruct st as [sf mf isd hd d frs]; exec.
    all: rewrite files_choose_files; by cbn [elem_eqb code Nat.eqb].
Qed.

(** X19. Choosing a model photo stores the first file, shows its preview
    and disables the preset selector; it touches neither the sketch nor the
    canvas nor the activations, and a later choice replaces the file. *)
Theorem model_upload_keeps_the_sketch
  (st : State) (file : File) (others : list File) :
  let st' := fst (step st (ModelChange (file :: others))) in
  modelFile st' = Some file
  ∧ src (dom st') modelPreview = createObjectURL file
  ∧ display (dom st') modelPreview = "block"
  ∧ contains (dom st') modelTypeSelect "disabled" = true
  ∧ sketchFile st' = sketchFile st ∧ hasDrawn st' = hasDrawn st
  ∧ isDrawing st' = isDrawing st ∧ frames st' = frames st
  ∧ raster (dom st') = raster (dom st) ∧ path (dom st') = path (dom st)
  ∧ (∀ file' others',
       modelFile (fst (step st' (ModelChange (file' :: others')))) = Some file').
Proof.
  split_and!.
  1-9: by (fields st; destruct hd; crunch).
  - fields st; destruct hd; crunch; by rewrite !path_apply.
  - intros file' others'. fields st; destruct hd; crunch; done.
Qed.

(** ** Requests *)

Lemma step_request_count (tid : nat) (st : State) (ev : Event) :
  (tally (sends tid) (step st ev).2 + request_ahead (frames (step st ev).1) tid
   ≤ request_ahead (frames st) tid)%nat.
Proof.
  fields st; destruct ev; crunch.
  all: unfold request_ahead; cbn [tally sends].
  all: try match goal with
         | Heq : ?l !! ?t0 = Some _ |- context [<[?t0 := _]> ?l !! _] =>
             pose proof (lookup_lt_Some _ _ _ Heq);
             destruct (decide (t0 = tid)) as [-> | Hne];
             [ rewrite list_lookup_insert_eq by lia; rewrite Heq
             | rewrite list_lookup_insert_ne by done;
               try rewrite (proj2 (Nat.eqb_neq t0 tid) Hne) ]
         end.
  all: try match goal with
         | |- context [(?l ++ [?fr]) !! _] =>
             destruct (decide (tid < length l));
             [ rewrite lookup_app_l by lia;
               try rewrite (proj2 (Nat.eqb_neq (length l) tid)) by lia
             | destruct (decide (tid = length l)) as [-> | ?];
               [ rewrite list_lookup_middle by done;
                 rewrite (lookup_ge_None_2 l (length l)) by lia
               | rewrite (lookup_ge_None_2 (l ++ [fr]) tid)
                   by (rewrite length_app; simpl; lia);
                 rewrite (lookup_ge_None_2 l tid) by lia;
                 try rewrite (proj2 (Nat.eqb_neq (length l) tid)) by lia ] ]
         end.
  all: rewrite ?Nat.eqb_refl; repeat case_match; simpl; lia.
Qed.

(** X20. Under one activation number at most one request is ever sent,
    whatever the state the run starts in and whatever happens while the
    activation is suspended. *)
Theorem at_most_one_request (st : State) (evs : list Event) (tid : nat) :
  (tally (sends tid) (snd (run st evs)) ≤ 1)%nat.
Proof.
  assert (tally (sends tid) (snd (run st evs))
            + request_ahead (frames (fst (run st evs))) tid
          ≤ request_ahead (frames st) tid)%nat as H.
  { revert st. induction evs as [|ev evs IH]; intros st; simpl; [lia |].
    pose proof (step_request_count tid st ev) as H1.
    destruct (step st ev) as [s1 l1]; simpl in *.
    specialize (IH s1). destruct (run s1 evs) as [s2 l2]; simpl in *.
    rewrite tally_app. lia. }
  assert (request_ahead (frames st) tid ≤ 1)%nat.
  { unfold request_ahead. repeat case_match; lia. }
  lia.
Qed.

(** X21. The listeners of the page's controls never reach outside the page:
    every effect of an event that neither starts nor resumes the generation
    operation is a write to the DOM; no file is read, nothing is sent, no
    notice is shown, and no activation changes. *)
Theorem controls_only_write_to_the_page (st : State) (ev : Event) :
  generation_event ev = false →
  Forall (λ entry, local_write entry = true) (snd (step st ev))
  ∧ frames (fst (step st ev)) = frames st.
Proof.
  intros Hev. fields st; destruct ev; try done; crunch.
  all: split; [repeat constructor | done].
Qed.

End Controller.

(** * The properties on sample inputs *)

Lemma generate_without_sketch_witness :
  sketchFile (initial samplePage) = None
  ∧ hasDrawn (initial samplePage) = false
  ∧ (handleGenerateClick sampleEncoder (initial samplePage) =
       (initial samplePage, [Alert "Please upload or draw a sketch."])
     ∧ (step sampleEncoder (initial samplePage) GenerateClick).1 =
       initial samplePage
     ∧ Forall (λ entry, ∃ msg, entry.2 = Alert msg)
         (step sampleEncoder (initial samplePage) GenerateClick).2).
Proof.
  split; [reflexivity |]. split; [reflexivity |].
  apply (generate_without_sketch sampleEncoder (initial samplePage));
    reflexivity.
Defined.

Lemma first_image_part_is_shown_witness :
  frames (fst (run sampleEncoder (initial samplePage)
                 (oneStroke ++ [GenerateClick]))) !! 0 = Some AwaitResponse
  ∧ src (dom (fst (step sampleEncoder
                     (fst (run sampleEncoder (initial samplePage)
                             (oneStroke ++ [GenerateClick])))
                     (ResponseSettled 0 (Fulfilled sampleResponse)))))
      resultImage = Href "data:image/png;base64,AAAA".
Proof.
  split; [reflexivity |].
  destruct (first_image_part_is_shown sampleEncoder samplePage
              (oneStroke ++ [GenerateClick]) 0 sampleResponse eq_refl)
    as [Hfound _].
  destruct (Hfound [textPart "Here is the photo."]
              (mkPart (Some sampleImage) None) sampleImage [])
    as [Hsrc _]; [reflexivity | by repeat constructor | reflexivity |].
  exact Hsrc.
Defined.

Lemma uploaded_sketch_takes_priority_witness :
  sketchFile uploadedAndDrawn = Some sampleSketch
  ∧ hasDrawn uploadedAndDrawn = true
  ∧ frames (fst (handleGenerateClick sampleEncoder uploadedAndDrawn)) !! 0 =
      Some (AwaitSketchPart sampleSketch)
  ∧ (ToDataURL ∉ snd (handleGenerateClick sampleEncoder uploadedAndDrawn))
  ∧ snd (step sampleEncoder
           (fst (handleGenerateClick sampleEncoder uploadedAndDrawn))
           (LoadEnd 0 (Some "data:image/png;base64,c2tldGNo"))) =
    [(Some 0,
      GenerateContent modelName
        [imagePart (Some "c2tldGNo") "image/png";
         textPart
           (textPrompt "a female model" "a stunning fashion design" "50")])].
Proof.
  split; [reflexivity |]. split; [reflexivity |].
  pose proof (uploaded_sketch_takes_priority sampleEncoder uploadedAndDrawn
                sampleSketch eq_refl eq_refl)
    as (Hframe & _ & Hcanvas & Hread & _).
  split; [exact Hframe |]. split; [exact Hcanvas |].
  exact (Hread (fst (handleGenerateClick sampleEncoder uploadedAndDrawn))
           "data:image/png;base64,c2tldGNo" Hframe).
Defined.

Lemma request_parts_in_order_witness :
  (Some 0, GenerateContent modelName sampleRequest)
    ∈ snd (step sampleEncoder
             (fst (run sampleEncoder (initial samplePage) oneStroke))
             GenerateClick)
  ∧ modelName = "gemini-2.5-flash-image-preview"
  ∧ sampleRequest =
    [imagePart (Some "iVBORw0KGgo=") "image/png";
     textPart (textPrompt "a female model" "a stunning fashion design" "50")].
Proof.
  assert ((Some 0, GenerateContent modelName sampleRequest)
            ∈ snd (step sampleEncoder
                     (fst (run sampleEncoder (initial samplePage) oneStroke))
                     GenerateClick)) as Hsent.
  { vm_compute.
    repeat first [apply list_elem_of_here | apply list_elem_of_further]. }
  split; [exact Hsent |].
  destruct (request_parts_in_order sampleEncoder samplePage oneStroke
              GenerateClick (Some 0) modelName sampleRequest Hsent)
    as [Hmodel [(_ & _ & _ & _ & Hrequest)
               | (tid & url & photo & before & during & Hev & _)]].
  - split; [exact Hmodel | exact Hrequest].
  - discriminate Hev.
Defined.

Lemma part_carries_the_payload_witness :
  has_comma "data:image/png;base64" = false
  ∧ has_comma "iVBORw0KGgo=" = false
  ∧ fileToGenerativePart sampleSketch
      (Some "data:image/png;base64,iVBORw0KGgo=") =
    Fulfilled (imagePart (Some "iVBORw0KGgo=") "image/png").
Proof.
  split; [reflexivity |]. split; [reflexivity |].
  exact (proj1 (part_carries_the_payload sampleEncoder sampleSketch samplePage
                  "data:image/png;base64" "iVBORw0KGgo=" eq_refl eq_refl)).
Defined.

Lemma part_of_a_url_without_comma_witness :
  has_comma "data:" = false
  ∧ fileToGenerativePart sampleSketch (Some "data:") =
    Fulfilled (imagePart None "image/png").
Proof.
  split; [reflexivity |].
  exact (proj1 (part_of_a_url_without_comma sampleSketch "data:" eq_refl)).
Defined.

Lemma one_generation_at_a_time_witness :
  in_flight (frames (fst (run sampleEncoder (initial samplePage)
                            (oneStroke ++ [GenerateClick])))) = 1
  ∧ step sampleEncoder
      (fst (run sampleEncoder (initial samplePage)
              (oneStroke ++ [GenerateClick])))
      GenerateClick =
    (fst (run sampleEncoder (initial samplePage)
            (oneStroke ++ [GenerateClick])), []).
Proof.
  split; [reflexivity |].
  exact (proj2 (proj2 (one_generation_at_a_time sampleEncoder samplePage
                         (oneStroke ++ [GenerateClick])) eq_refl)).
Defined.

Lemma cleanup_exactly_once_witness :
  truthy (sketchFile (fst (run sampleEncoder (initial samplePage) oneStroke)))
  || hasDrawn (fst (run sampleEncoder (initial samplePage) oneStroke)) = true
  ∧ tally (reenables 0)
      (map (pair (Some 0))
         (snd (handleGenerateClick sampleEncoder
                 (fst (run sampleEncoder (initial samplePage) oneStroke)))) ++
       snd (run sampleEncoder
              (fst (handleGenerateClick sampleEncoder
                      (fst (run sampleEncoder (initial samplePage) oneStroke))))
              [ResponseSettled 0 (Fulfilled sampleResponse)])) = 1.
Proof.
  split; [reflexivity |].
  exact (proj1 (cleanup_exactly_once sampleEncoder
                  (fst (run sampleEncoder (initial samplePage) oneStroke))
                  [ResponseSettled 0 (Fulfilled sampleResponse)] eq_refl)).
Defined.

Lemma rejected_request_is_shown_witness :
  frames (fst (run sampleEncoder (initial samplePage)
                 (oneStroke ++ [GenerateClick]))) !! 0 = Some AwaitResponse
  ∧ childNodes
      (dom (fst (step sampleEncoder
                   (fst (run sampleEncoder (initial samplePage)
                           (oneStroke ++ [GenerateClick])))
                   (ResponseSettled 0 (Rejected "Failed to fetch")))))
      placeholder = parsed (errorHTML "Failed to fetch").
Proof.
  split; [reflexivity |].
  exact (proj1 (proj2 (rejected_request_is_shown sampleEncoder samplePage
                         (oneStroke ++ [GenerateClick]) 0 "Failed to fetch"
                         eq_refl))).
Defined.

Lemma only_first_candidate_is_read_witness :
  frames (fst (run sampleEncoder (initial samplePage)
                 (oneStroke ++ [GenerateClick]))) !! 0 = Some AwaitResponse
  ∧ Forall (λ p, inlineData p = None)
      (responseParts (mkResponse (Some [textOnly])))
  ∧ childNodes
      (dom (fst (step sampleEncoder
                   (fst (run sampleEncoder (initial samplePage)
                           (oneStroke ++ [GenerateClick])))
                   (ResponseSettled 0
                      (Fulfilled (mkResponse (Some [textOnly; withImage])))))))
      placeholder = parsed (errorHTML noImageMessage).
Proof.
  assert (Forall (λ p, inlineData p = None)
            (responseParts (mkResponse (Some [textOnly])))) as Hnone.
  { repeat constructor. }
  split; [reflexivity |]. split; [exact Hnone |].
  exact (proj1 (proj2 (only_first_candidate_is_read sampleEncoder samplePage
                         (oneStroke ++ [GenerateClick]) 0 textOnly [withImage]
                         eq_refl Hnone
                         (mkResponse (Some [textOnly; withImage]))
                         (or_introl eq_refl)))).
Defined.

Lemma request_uses_current_controls_witness :
  frames (fst (run sampleEncoder (initial samplePage) editedWhileReading)) !! 0 =
    Some (AwaitModelPart [imagePart (Some "iVBORw0KGgo=") "image/png"] sampleModel)
  ∧ snd (step sampleEncoder
           (fst (run sampleEncoder (initial samplePage) editedWhileReading))
           (LoadEnd 0 (Some "data:image/jpeg;base64,/9j/4AAQ"))) =
    [(Some 0,
      GenerateContent modelName
        [imagePart (Some "iVBORw0KGgo=") "image/png";
         imagePart (Some "/9j/4AAQ") "image/jpeg";
         textPart (textPrompt "the uploaded model" "red silk gown" "50")])].
Proof.
  split; [reflexivity |].
  exact (proj1 (request_uses_current_controls sampleEncoder
                  (fst (run sampleEncoder (initial samplePage)
                          editedWhileReading))
                  0 [imagePart (Some "iVBORw0KGgo=") "image/png"] sampleModel
                  "data:image/jpeg;base64,/9j/4AAQ" eq_refl)).
Defined.

Lemma generation_leaves_inputs_alone_witness :
  generation_event GenerateClick = true
  ∧ hasDrawn (fst (step sampleEncoder
                     (fst (run sampleEncoder (initial samplePage) oneStroke))
                     GenerateClick)) =
    hasDrawn (fst (run sampleEncoder (initial samplePage) oneStroke)).
Proof.
  split; [reflexivity |].
  exact (proj1 (proj2 (proj2 (proj2
           (generation_leaves_inputs_alone sampleEncoder
              (fst (run sampleEncoder (initial samplePage) oneStroke))
              GenerateClick eq_refl))))).
Defined.

Lemma stroke_follows_the_pointer_witness :
  sketchFile (initial samplePage) = None
  ∧ path (dom (fst (run sampleEncoder (initial samplePage)
                      (PointerDown (1, 1)%Z ::
                       map PointerMove [(2, 3)%Z; (4, 3)%Z])))) =
    [[(1, 1)%Z; (2, 3)%Z; (4, 3)%Z]].
Proof.
  split; [reflexivity |].
  exact (proj1 (stroke_follows_the_pointer sampleEncoder (initial samplePage)
                  (1, 1)%Z [(2, 3)%Z; (4, 3)%Z] eq_refl)).
Defined.

Lemma drawing_is_ignored_with_an_upload_witness :
  sketchFile uploadedAndDrawn = Some sampleSketch
  ∧ Forall (λ ev, draws ev = true)
      [PointerDown (1, 1)%Z; PointerMove (2, 3)%Z]
  ∧ run sampleEncoder uploadedAndDrawn
      [PointerDown (1, 1)%Z; PointerMove (2, 3)%Z] = (uploadedAndDrawn, []).
Proof.
  assert (Forall (λ ev, draws ev = true)
            [PointerDown (1, 1)%Z; PointerMove (2, 3)%Z]) as Hall.
  { repeat constructor. }
  split; [reflexivity |]. split; [exact Hall |].
  exact (drawing_is_ignored_with_an_upload sampleEncoder uploadedAndDrawn
           sampleSketch _ eq_refl Hall).
Defined.

Lemma moves_are_ignored_outside_a_stroke_witness :
  isDrawing (initial samplePage) = false
  ∧ Forall (λ ev, moves_or_lifts ev = true) [PointerMove (2, 3)%Z; PointerUp]
  ∧ run sampleEncoder (initial samplePage) [PointerMove (2, 3)%Z; PointerUp] =
    (initial samplePage, []).
Proof.
  assert (Forall (λ ev, moves_or_lifts ev = true)
            [PointerMove (2, 3)%Z; PointerUp]) as Hall.
  { repeat constructor. }
  split; [reflexivity |]. split; [exact Hall |].
  exact (moves_are_ignored_outside_a_stroke sampleEncoder (initial samplePage)
           _ eq_refl Hall).
Defined.

Lemma clear_does_not_end_a_stroke_witness :
  isDrawing (fst (run sampleEncoder (initial samplePage) oneStroke)) = true
  ∧ raster (dom (fst (run sampleEncoder
                        (fst (run sampleEncoder (initial samplePage) oneStroke))
                        [ClearClick; PointerMove (2, 3)%Z]))) =
    [((1, 1)%Z, (2, 3)%Z)].
Proof.
  split; [reflexivity |].
  exact (proj1 (proj2 (proj2 (proj2
           (clear_does_not_end_a_stroke sampleEncoder
              (fst (run sampleEncoder (initial samplePage) oneStroke))
              (2, 3)%Z eq_refl))))).
Defined.

Lemma press_counts_as_a_sketch_witness :
  sketchFile (initial samplePage) = None
  ∧ hasDrawn (fst (step sampleEncoder (initial samplePage)
                     (PointerDown (1, 1)%Z))) = true.
Proof.
  split; [reflexivity |].
  exact (proj1 (press_counts_as_a_sketch sampleEncoder (initial samplePage)
                  (1, 1)%Z eq_refl)).
Defined.

Lemma controls_only_write_to_the_page_witness :
  generation_event ClearClick = false
  ∧ frames (fst (step sampleEncoder uploadedAndDrawn ClearClick)) =
    frames uploadedAndDrawn.
Proof.
  split; [reflexivity |].
  exact (proj2 (controls_only_write_to_the_page sampleEncoder uploadedAndDrawn
                  ClearClick eq_refl)).
Defined.
